(** * sin_cos_tab_tgen: the sine / cosine / tangent table generator

    A shallow embedding of [src-py/sin_cos_tab_tgen.py].  The program
    walks the hiwonder servo units 0..375 (0.24 degrees each, 375 = 90
    degrees) three times and prints, for every unit, the sine, cosine or
    tangent of the angle together with the unit, the angle in radians and
    the angle in degrees.

    Python's [float] is IEEE 754 binary64, which is what Rocq's primitive
    [float] implements (round to nearest, ties to even), so the arithmetic
    of the two converters is evaluated bit for bit.  The C library's
    [sin], [cos] and [tan] are not part of the program: they are taken as
    a record of functions ([Libm]). *)

From Stdlib Require Import ZArith List Bool Lia Ascii String.
From Stdlib Require Import Floats Uint63 DecimalString.
From Stdlib Require Import QArith Reals Qreals Lra.
Import ListNotations.

Local Open Scope string_scope.
Local Open Scope Z_scope.

(* ===================================================================== *)
(** * Python numbers *)
(* ===================================================================== *)

Module PyNum.

(** Conversion of a Python [int] to [float], as done implicitly by the
    mixed operations [float * int] and [int / int].  Exact for
    [|n| < 2^53], correctly rounded up to [2^63]; the program only ever
    converts 180, 750 and the units 0..375. *)
Definition float_of_int (n : Z) : float :=
  if n <? 0 then (- of_uint63 (Uint63.of_Z (- n)))%float
  else of_uint63 (Uint63.of_Z n).

(** [int / int]: true division.  For operands that are exactly
    representable the result is the correctly rounded quotient, which is
    the IEEE division of the converted operands. *)
Definition int_truediv (a b : Z) : float :=
  (float_of_int a / float_of_int b)%float.

(** [float * int] and [float / int]. *)
Definition float_mul_int (x : float) (n : Z) : float :=
  (x * float_of_int n)%float.
Definition float_div_int (x : float) (n : Z) : float :=
  (x / float_of_int n)%float.

(** [math.pi]: the double nearest to pi, 3.141592653589793. *)
Definition math_pi : float := 0x1.921fb54442d18p+1%float.

(** [range(start, stop, step)] for a positive step. *)
Definition range (start stop step : Z) : list Z :=
  let len := if start <? stop then (stop - start + step - 1) / step else 0 in
  map (fun i => start + Z.of_nat i * step) (seq 0 (Z.to_nat len)).

End PyNum.
Export PyNum.

(* ===================================================================== *)
(** * The unit converters *)
(* ===================================================================== *)

(** [def hwians_to_degs(hw): degs = (180 / 750) * hw; return degs] *)
Definition hwians_to_degs (hw : Z) : float :=
  let degs := float_mul_int (int_truediv 180 750) hw in
  degs.

(** [def hwians_to_rads(hw): rads = (math.pi / 750) * hw; return rads] *)
Definition hwians_to_rads (hw : Z) : float :=
  let rads := float_mul_int (float_div_int math_pi 750) hw in
  rads.

(** The formulas as the specification words them, evaluated left to
    right: [unit * 180.0 / 750.0] and [unit * pi / 750.0]. *)
Definition spec_unit_to_degrees (unit : Z) : float :=
  (float_of_int unit * 180.0 / 750.0)%float.

Definition spec_unit_to_radians (unit : Z) : float :=
  (float_of_int unit * math_pi / 750.0)%float.

(* ===================================================================== *)
(** * CPython's [math] module over the C library *)
(* ===================================================================== *)

Inductive PyExc : Type :=
| ValueError (msg : string)
| OverflowError (msg : string).

(** The three C library functions the program reaches through [math]. *)
Record Libm : Type := {
  c_sin : float -> float;
  c_cos : float -> float;
  c_tan : float -> float
}.

(** [math_1] of [Modules/mathmodule.c], the wrapper behind [math.sin],
    [math.cos] and [math.tan]: a NaN result for a non-NaN argument and an
    infinite result for a finite argument are turned into exceptions,
    every other result is returned unchanged.  The C functions are taken
    as pure: [errno], which they leave alone on finite arguments, is not
    modelled. *)
Definition math_1 (func : float -> float) (can_overflow : bool) (x : float)
  : PyExc + float :=
  let r := func x in
  if is_nan r && negb (is_nan x) then inl (ValueError "math domain error")
  else if is_infinity r && is_finite x then
    inl (if can_overflow then OverflowError "math range error"
         else ValueError "math domain error")
  else inr r.

Definition math_sin (L : Libm) : float -> PyExc + float := math_1 (c_sin L) false.
Definition math_cos (L : Libm) : float -> PyExc + float := math_1 (c_cos L) false.
Definition math_tan (L : Libm) : float -> PyExc + float := math_1 (c_tan L) false.

(* ===================================================================== *)
(** * Text: [str(int)], [format(int, "3")] and [repr(float)] *)
(* ===================================================================== *)

Module PyText.

Definition LF : ascii := "010"%char.
Definition TAB : ascii := "009"%char.

Definition str_nat_Z (n : Z) : string :=
  NilZero.string_of_uint (N.to_uint (Z.to_N n)).

(** [str(n)] for a Python [int]. *)
Definition str_int (n : Z) : string :=
  if n <? 0 then "-" ++ str_nat_Z (- n) else str_nat_Z n.

Fixpoint repeat_char (c : ascii) (n : nat) : string :=
  match n with
  | O => ""
  | S k => String c (repeat_char c k)
  end.

(** [format(n, str(width))]: numbers are right-aligned and padded with
    spaces; a text longer than the field is not cut. *)
Definition format_int_width (width : nat) (n : Z) : string :=
  let s := str_int n in
  repeat_char " "%char (width - String.length s) ++ s.

(** ** Shortest round-trip digits of a finite double

    [x = m * 2^e] is written as the fraction [X / D]; [Lo / D] and
    [Hi / D] are the midpoints to the neighbouring doubles, i.e. the ends
    of the set of reals that round to [x] (closed when [m] is even). *)

Definition pow10 (k : Z) : Z := 10 ^ k.

Record Interval : Type := {
  iv_X : Z; iv_Lo : Z; iv_Hi : Z; iv_D : Z; iv_closed : bool
}.

Definition interval_of (m : positive) (e : Z) : Interval :=
  let mz := Zpos m in
  let lo4 := if (mz =? 2 ^ 52) && (-1074 <? e) then 4 * mz - 1 else 4 * mz - 2 in
  let u := if 2 <=? e then 2 ^ (e - 2) else 1 in
  let d := if 2 <=? e then 1 else 2 ^ (2 - e) in
  {| iv_X := 4 * mz * u; iv_Lo := lo4 * u; iv_Hi := (4 * mz + 2) * u;
     iv_D := d; iv_closed := Z.even mz |}.

(** Numerator and denominator scale for comparing [c * 10^q] with the
    interval: [c * 10^q <= X / D] iff [c * A <= X * B]. *)
Definition scaleA (iv : Interval) (q : Z) : Z :=
  if 0 <=? q then pow10 q * iv_D iv else iv_D iv.
Definition scaleB (q : Z) : Z :=
  if 0 <=? q then 1 else pow10 (- q).

Definition in_interval (iv : Interval) (q c : Z) : bool :=
  let a := c * scaleA iv q in
  let b := scaleB q in
  if iv_closed iv then (iv_Lo iv * b <=? a) && (a <=? iv_Hi iv * b)
  else (iv_Lo iv * b <? a) && (a <? iv_Hi iv * b).

(** The decimal point position: the least [k] with [x < 10^k], searched
    upwards from an estimate taken from the binary exponent. *)
Fixpoint decpt_from (fuel : nat) (iv : Interval) (k : Z) : Z :=
  match fuel with
  | O => k
  | S f =>
      if iv_X iv * scaleB k <? scaleA iv k then k
      else decpt_from f iv (k + 1)
  end.

Definition decpt_of (m : positive) (e : Z) (iv : Interval) : Z :=
  let b := e + Z.log2 (Zpos m) in
  decpt_from 8 iv (b * 30103 / 100000 - 2).

(** The candidate with [d] significant digits: the neighbour of [x] on
    the grid [10^q] (with [q = k - d]) that rounds back to [x], the
    nearer one when both do. *)
Definition candidate (iv : Interval) (q : Z) : option Z :=
  let a := scaleA iv q in
  let xb := iv_X iv * scaleB q in
  let n := xb / a in
  let dn := xb - n * a in
  let up := (n + 1) * a - xb in
  let okn := in_interval iv q n && (0 <? n) in
  let oku := in_interval iv q (n + 1) in
  if okn && oku then
    Some (if dn <? up then n else if up <? dn then n + 1
          else if Z.even n then n else n + 1)
  else if okn then Some n
  else if oku then Some (n + 1)
  else None.

Fixpoint shortest_from (fuel : nat) (iv : Interval) (k : Z) (d : Z) : Z * Z :=
  match fuel with
  | O => (iv_X iv * scaleB (k - d) / scaleA iv (k - d), k - d)
  | S f =>
      match candidate iv (k - d) with
      | Some c => (c, k - d)
      | None => shortest_from f iv k (d + 1)
      end
  end.

Fixpoint strip_zeros (fuel : nat) (c q : Z) : Z * Z :=
  match fuel with
  | O => (c, q)
  | S f => if (0 <? c) && (c mod 10 =? 0) then strip_zeros f (c / 10) (q + 1)
           else (c, q)
  end.

(** Digits and decimal point position of a positive finite double:
    the value is [0.digits * 10^decpt]. *)
Definition float_digits (m : positive) (e : Z) : string * Z :=
  let iv := interval_of m e in
  let k := decpt_of m e iv in
  let '(c, q) := shortest_from 17 iv k 1 in
  let '(c', q') := strip_zeros 20 c q in
  let ds := str_nat_Z c' in
  (ds, Z.of_nat (String.length ds) + q').

Definition str_head (s : string) : string :=
  match s with "" => "" | String c _ => String c "" end.
Definition str_tail (s : string) : string :=
  match s with "" => "" | String _ t => t end.

Definition exp_text (x : Z) : string :=
  let a := str_nat_Z (Z.abs x) in
  (if x <? 0 then "-" else "+") ++
  (if Nat.ltb (String.length a) 2 then "0" ++ a else a).

(** The layout of [repr]: exponent notation when [decpt <= -4] or
    [decpt > 16], otherwise positional with a [.0] added to integers. *)
Definition float_layout (ds : string) (decpt : Z) : string :=
  let len := String.length ds in
  if (decpt <=? -4) || (16 <? decpt) then
    str_head ds ++
    (if Nat.ltb 1 len then "." ++ str_tail ds else "") ++
    "e" ++ exp_text (decpt - 1)
  else if decpt <=? 0 then
    "0." ++ repeat_char "0"%char (Z.to_nat (- decpt)) ++ ds
  else if Z.of_nat len <=? decpt then
    ds ++ repeat_char "0"%char (Z.to_nat decpt - len) ++ ".0"
  else
    substring 0 (Z.to_nat decpt) ds ++ "." ++
    substring (Z.to_nat decpt) (len - Z.to_nat decpt) ds.

(** [repr(x)], which is also [str(x)] and what an empty format field
    [{}] produces: the shortest digits that read back as [x]
    ([sys.float_repr_style == 'short']). *)
Definition float_repr (x : float) : string :=
  match Prim2SF x with
  | S754_nan => "nan"
  | S754_infinity s => if s then "-inf" else "inf"
  | S754_zero s => if s then "-0.0" else "0.0"
  | S754_finite s m e =>
      let '(ds, decpt) := float_digits m e in
      (if s then "-" else "") ++ float_layout ds decpt
  end.

End PyText.
Export PyText.

(* ===================================================================== *)
(** * Running a module: standard output and exceptions *)
(* ===================================================================== *)

(** What a Python process can read from outside: the command line, the
    environment and standard input.  Every statement runs in a world;
    the generator's statements never look at it. *)
Record World : Type := {
  argv : list string;
  environ : list (string * string);
  stdin : string
}.

Module PyRun.

(** A statement run in a world with the text written to standard output
    so far: it returns the text written afterwards and either the
    exception that stopped it or its value.  What was printed before an
    exception stays printed. *)
Definition Py (A : Type) : Type := World -> string -> string * (PyExc + A).

Definition ret {A : Type} (a : A) : Py A := fun _ out => (out, inr a).

Definition bind {A B : Type} (m : Py A) (k : A -> Py B) : Py B :=
  fun w out =>
    match m w out with
    | (out', inl e) => (out', inl e)
    | (out', inr a) => k a w out'
    end.

(** The result of a library call that may raise. *)
Definition call {A : Type} (r : PyExc + A) : Py A := fun _ out => (out, r).

(** [print(s)]: the text and a line feed, appended to standard output.
    Failures of the stream itself (a closed pipe, a full disk) are not
    modelled. *)
Definition print (s : string) : Py unit :=
  fun _ out => (out ++ s ++ String LF "", inr tt).

(** [for x in l: body(x)] *)
Fixpoint for_each (l : list Z) (body : Z -> Py unit) : Py unit :=
  match l with
  | [] => ret tt
  | x :: rest => bind (body x) (fun _ => for_each rest body)
  end.

End PyRun.
Export PyRun.

Declare Scope py_scope.
Delimit Scope py_scope with py.
Notation "x <- m ;; k" := (bind m (fun x => k))
  (at level 61, m at next level, right associativity) : py_scope.
Notation "m ;; k" := (bind m (fun _ => k))
  (at level 61, right associativity) : py_scope.

(* ===================================================================== *)
(** * The program *)
(* ===================================================================== *)

(** ["{}\t; HW:{:3} Rads:{} Degs:{}".format(r, hw, rads, degs)] *)
Definition format_line (r : float) (hw : Z) (rads degs : float) : string :=
  float_repr r ++ String TAB "; HW:" ++ format_int_width 3 hw ++
  " Rads:" ++ float_repr rads ++ " Degs:" ++ float_repr degs.

Section Program.

Variable L : Libm.

Local Open Scope py_scope.

Definition sin_pass : Py unit :=
  print (";" ++ String LF ";sin") ;;
  for_each (range 0 376 1) (fun hw =>
    let rads := hwians_to_rads hw in
    let degs := hwians_to_degs hw in
    r <- call (math_sin L rads) ;;
    print (format_line r hw rads degs)).

Definition cos_pass : Py unit :=
  print (";" ++ String LF ";cos") ;;
  for_each (range 0 376 1) (fun hw =>
    let rads := hwians_to_rads hw in
    let degs := hwians_to_degs hw in
    r <- call (math_cos L rads) ;;
    print (format_line r hw rads degs)).

Definition tan_pass : Py unit :=
  print (";" ++ String LF ";tan") ;;
  for_each (range 0 376 1) (fun hw =>
    let rads := hwians_to_rads hw in
    let degs := hwians_to_degs hw in
    r <- call (math_tan L rads) ;;
    print (format_line r hw rads degs)).

(** The module body: the three passes in program order. *)
Definition main : Py unit := sin_pass ;; cos_pass ;; tan_pass.

(** A run of the program: standard output starts empty. *)
Definition run (w : World) : string * (PyExc + unit) := main w "".

Definition stdout_of (w : World) : string := fst (run w).
Definition result_of (w : World) : PyExc + unit := snd (run w).

End Program.

(** The lines of a text: the pieces between line feeds; a last piece
    without a line feed counts when it is not empty. *)
Fixpoint lines (s : string) : list string :=
  match s with
  | "" => []
  | String c rest =>
      if Ascii.eqb c LF then "" :: lines rest
      else match lines rest with
           | [] => [String c ""]
           | l :: ls => String c l :: ls
           end
  end.

(** The text of a list of lines, each closed by a line feed. *)
Definition unlines (ls : list string) : string :=
  fold_right (fun l acc => l ++ String LF acc) "" ls.

Fixpoint no_lf (s : string) : bool :=
  match s with
  | "" => true
  | String c rest => negb (Ascii.eqb c LF) && no_lf rest
  end.

(** The units of the table and the line the program prints for a unit
    when the library function [f] returns normally. *)
Definition units : list Z := range 0 376 1.

Definition entry (f : float -> float) (hw : Z) : string :=
  format_line (f (hwians_to_rads hw)) hw (hwians_to_rads hw) (hwians_to_degs hw).

(** The library returns a finite value at every argument of the table. *)
Definition finite_on_table (f : float -> float) : bool :=
  forallb (fun hw => is_finite (f (hwians_to_rads hw))) units.

Definition libm_table_finite (L : Libm) : bool :=
  finite_on_table (c_sin L) && finite_on_table (c_cos L) &&
  finite_on_table (c_tan L).

(* ===================================================================== *)
(** * A reference C library *)
(* ===================================================================== *)

(** A small double precision [sin], [cos] and [tan] for arguments in
    [0, pi/2], the range of the table: Taylor polynomials below [pi/4]
    and the reflection [pi/2 - x], with [pi/2] split in two doubles,
    above.  It is one inhabitant of [Libm]; the theorems hold for every
    library, this one shows that what they ask of a library can be met. *)
Module RefLibm.

Local Open Scope float_scope.

Definition pio4 : float := 0x1.921fb54442d18p-1.
Definition pio2_hi : float := 0x1.921fb54442d18p+0.
Definition pio2_lo : float := 0x1.1a62633145c07p-54.

(** [1 - z/d1 * (1 - z/d2 * (...))] *)
Fixpoint horner (z : float) (ds : list float) : float :=
  match ds with
  | [] => 1
  | d :: rest => 1 - z / d * horner z rest
  end.

Definition kernel_sin (x : float) : float :=
  x * horner (x * x) [6; 20; 42; 72; 110; 156; 210; 272; 342; 420; 506].

Definition kernel_cos (x : float) : float :=
  horner (x * x) [2; 12; 30; 56; 90; 132; 182; 240; 306; 380; 462].

Definition ref_sin (x : float) : float :=
  if x <=? pio4 then kernel_sin x else kernel_cos ((pio2_hi - x) + pio2_lo).

Definition ref_cos (x : float) : float :=
  if x <=? pio4 then kernel_cos x else kernel_sin ((pio2_hi - x) + pio2_lo).

Definition ref_tan (x : float) : float := ref_sin x / ref_cos x.

Definition libm : Libm :=
  {| c_sin := ref_sin; c_cos := ref_cos; c_tan := ref_tan |}.

End RefLibm.

Definition world0 : World := {| argv := []; environ := []; stdin := "" |}.

(* ===================================================================== *)
(** * What a run prints, as a list of lines *)
(* ===================================================================== *)

(** One iteration of a pass: the line it prints, or the exception of the
    [math] call. *)
Definition line_of (trig : float -> PyExc + float) (hw : Z) : PyExc + string :=
  match trig (hwians_to_rads hw) with
  | inl e => inl e
  | inr r => inr (format_line r hw (hwians_to_rads hw) (hwians_to_degs hw))
  end.

(** The lines printed by a loop up to its first exception, and how the
    loop ends. *)
Fixpoint emitted (g : Z -> PyExc + string) (l : list Z) : list string :=
  match l with
  | [] => []
  | x :: rest =>
      match g x with
      | inl _ => []
      | inr s => s :: emitted g rest
      end
  end.

Fixpoint outcome (g : Z -> PyExc + string) (l : list Z) : PyExc + unit :=
  match l with
  | [] => inr tt
  | x :: rest =>
      match g x with
      | inl e => inl e
      | inr _ => outcome g rest
      end
  end.

Definition pass_lines (name : string) (trig : float -> PyExc + float)
  : list string :=
  ";" :: (";" ++ name) :: emitted (line_of trig) units.

Definition pass_outcome (trig : float -> PyExc + float) : PyExc + unit :=
  outcome (line_of trig) units.

Definition transcript (L : Libm) : list string * (PyExc + unit) :=
  match pass_outcome (math_sin L) with
  | inl e => (pass_lines "sin" (math_sin L), inl e)
  | inr _ =>
      match pass_outcome (math_cos L) with
      | inl e =>
          ((pass_lines "sin" (math_sin L) ++ pass_lines "cos" (math_cos L))%list,
           inl e)
      | inr _ =>
          ((pass_lines "sin" (math_sin L) ++ pass_lines "cos" (math_cos L) ++
            pass_lines "tan" (math_tan L))%list,
           pass_outcome (math_tan L))
      end
  end.

(** The complete table for a library that returns normally everywhere. *)
Definition table_lines (L : Libm) : list string :=
  ([";"; ";sin"] ++ map (entry (c_sin L)) units ++
   [";"; ";cos"] ++ map (entry (c_cos L)) units ++
   [";"; ";tan"] ++ map (entry (c_tan L)) units)%list.

Definition is_header (ln : string) : Prop :=
  ln = ";" \/ ln = ";sin" \/ ln = ";cos" \/ ln = ";tan".


(** A data line whose trig value is a finite double. *)
Definition finite_data_line (ln : string) : Prop :=
  exists (r : float) (hw : Z),
    In hw units /\ is_finite r = true /\
    ln = format_line r hw (hwians_to_rads hw) (hwians_to_degs hw).

(* ===================================================================== *)
(** * Reading the table back *)
(* ===================================================================== *)

(** The servo's whole range of units, 0..1000 (0 to 240 degrees), of
    which the table covers 0..375. *)
Definition servo_units : list Z := range 0 1001 1.

(** The comment the program puts after the tab: it depends on the unit
    alone. *)
Definition comment_of (hw : Z) : string :=
  "; HW:" ++ format_int_width 3 hw ++
  " Rads:" ++ float_repr (hwians_to_rads hw) ++
  " Degs:" ++ float_repr (hwians_to_degs hw).

(** Membership of a character in an alphabet, and texts over an
    alphabet. *)
Fixpoint char_in (alphabet : string) (c : ascii) : bool :=
  match alphabet with
  | "" => false
  | String a rest => Ascii.eqb c a || char_in rest c
  end.

Fixpoint all_in (alphabet : string) (s : string) : bool :=
  match s with
  | "" => true
  | String c rest => char_in alphabet c && all_in alphabet rest
  end.

(** The characters of a finite number's [repr], and those of any
    [repr] (with [inf] and [nan]). *)
Definition numeric_chars : string := "0123456789.e+-".
Definition repr_chars : string := "0123456789.e+-infa".

(** A text cut at the first occurrence of a character: what is before
    it and what is after it (all of the text and nothing when the
    character does not occur). *)
Fixpoint split_at (c : ascii) (s : string) : string * string :=
  match s with
  | "" => ("", "")
  | String a rest =>
      if Ascii.eqb a c then ("", rest)
      else let '(l, r) := split_at c rest in (String a l, r)
  end.

Definition starts_with (c : ascii) (s : string) : bool :=
  match s with
  | "" => false
  | String a _ => Ascii.eqb a c
  end.

(* ===================================================================== *)
(** * The value of a double and the accuracy of a C library *)
(* ===================================================================== *)

(** The rational a finite double stands for: [m * 2^e], signed. *)
Definition SF_Q (f : spec_float) : option Q :=
  match f with
  | S754_zero _ => Some 0%Q
  | S754_finite s m e =>
      let mag := if 0 <=? e then inject_Z (Zpos m * 2 ^ e)
                 else Qmake (Zpos m) (Z.to_pos (2 ^ (- e))) in
      Some (if s then Qopp mag else mag)
  | S754_infinity _ => None
  | S754_nan => None
  end.

Definition float_Q (x : float) : option Q :=
  if is_finite x then SF_Q (Prim2SF x) else None.

Definition float_real (x : float) : option R := option_map Q2R (float_Q x).

(** What is asked of a C library function at one argument, where [t] is
    the mathematical value and [f] the double returned: either [f] is a
    finite double within half of [t] of it, or [f] is an infinity and
    [t] is out of the range of doubles (the overflow range error of C,
    7.12.1).  Every libm is far more accurate than that. *)
Definition approximates (t : R) (f : float) : Prop :=
  (exists v : R, float_real f = Some v /\ (Rabs (v - t) <= Rabs t / 2)%R) \/
  (is_infinity f = true /\ (IZR (2 ^ 1023) <= Rabs t)%R).

Definition libm_accurate_at (L : Libm) (x : float) : Prop :=
  exists xr : R,
    float_real x = Some xr /\
    approximates (sin xr) (c_sin L x) /\
    approximates (cos xr) (c_cos L x) /\
    approximates (tan xr) (c_tan L x).

(** The library meets that requirement at the arguments of the table. *)
Definition libm_accurate_on_table (L : Libm) : Prop :=
  forall hw, In hw units -> libm_accurate_at L (hwians_to_rads hw).

(** ** Rational enclosures of sine, cosine and tangent

    The partial sums of the series of cosine and sine at the rational
    [a / b], kept as one fraction: the numerator [N] of the sum over the
    denominator [D = b^(2n) (2n)!] (for sine [b^(2n+1) (2n+1)!]), with
    the power [P] of [a] in the last term. *)
Fixpoint cos_sum (a b : Z) (n : nat) : Z * Z * Z :=
  match n with
  | O => (1, 1, 1)
  | S k =>
      let '(N, D, P) := cos_sum a b k in
      let c := Z.of_nat (2 * k + 1) * Z.of_nat (2 * k + 2) in
      let P' := P * a * a in
      (N * (b * b * c) + (if Nat.even (S k) then P' else - P'),
       D * (b * b * c), P')
  end.

Fixpoint sin_sum (a b : Z) (n : nat) : Z * Z * Z :=
  match n with
  | O => (a, b, a)
  | S k =>
      let '(N, D, P) := sin_sum a b k in
      let c := Z.of_nat (2 * k + 2) * Z.of_nat (2 * k + 3) in
      let P' := P * a * a in
      (N * (b * b * c) + (if Nat.even (S k) then P' else - P'),
       D * (b * b * c), P')
  end.

Definition cosQ (q : Q) (n : nat) : Q :=
  let '(N, D, _) := cos_sum (Qnum q) (Zpos (Qden q)) n in
  Qmake N (Z.to_pos D).

Definition sinQ (q : Q) (n : nat) : Q :=
  let '(N, D, _) := sin_sum (Qnum q) (Zpos (Qden q)) n in
  Qmake N (Z.to_pos D).

Definition in_domain (q : Q) : bool := Qle_bool 0 q && Qle_bool q 2.

(** [lo <= sin q <= hi], decided with the partial sums [2n+1] and
    [2n+2], which enclose the sine; likewise for cosine and for the
    tangent as their quotient. *)
Definition sin_between (n : nat) (q lo hi : Q) : bool :=
  in_domain q && Qle_bool lo (sinQ q (2 * n + 1)) &&
  Qle_bool (sinQ q (2 * (n + 1))) hi.

Definition cos_between (n : nat) (q lo hi : Q) : bool :=
  in_domain q && Qle_bool lo (cosQ q (2 * n + 1)) &&
  Qle_bool (cosQ q (2 * (n + 1))) hi.

Definition tan_between (n : nat) (q lo hi : Q) : bool :=
  let clo := cosQ q (2 * n + 1) in
  in_domain q && Qle_bool 0 lo && Qle_bool 0 hi && negb (Qle_bool clo 0) &&
  Qle_bool (lo * cosQ q (2 * (n + 1))) (sinQ q (2 * n + 1)) &&
  Qle_bool (sinQ q (2 * (n + 1))) (hi * clo).

(** Short sums first, longer ones where they are not enough. *)
Definition first_of (p : nat -> bool) : bool :=
  if p 1%nat then true else if p 3%nat then true else p 7%nat.

(** The double [y] is within half of the function's value at the double
    [x]: the value lies between [2/3] of [y] and twice [y]. *)
Definition accurate_value (between : nat -> Q -> Q -> Q -> bool)
           (x y : float) : bool :=
  match float_Q x, float_Q y with
  | Some q, Some v =>
      Qle_bool 0 v &&
      first_of (fun n => between n q ((2 # 3) * v)%Q (2 * v)%Q)
  | _, _ => false
  end.

Definition libm_checked_at (L : Libm) (x : float) : bool :=
  accurate_value sin_between x (c_sin L x) &&
  accurate_value cos_between x (c_cos L x) &&
  accurate_value tan_between x (c_tan L x).

(** The tangent at the double [x] is at most [2^1000]. *)
Definition tan_in_reach (x : float) : bool :=
  match float_Q x with
  | Some q => first_of (fun n => tan_between n q 0 (inject_Z (2 ^ 1000)))
  | None => false
  end.

(* ===================================================================== *)
(** * Text lemmas *)
(* ===================================================================== *)

Section TextFacts.

Lemma str_app_assoc (a b c : string) : (a ++ b) ++ c = a ++ (b ++ c).
Proof. induction a as [|x a IH]; simpl; [reflexivity | now rewrite IH]. Qed.

Lemma str_app_nil_r (a : string) : a ++ "" = a.
Proof. induction a as [|x a IH]; simpl; [reflexivity | now rewrite IH]. Qed.

Lemma no_lf_app (a b : string) : no_lf (a ++ b) = no_lf a && no_lf b.
Proof.
  induction a as [|x a IH]; simpl; [reflexivity|].
  rewrite IH. now rewrite andb_assoc.
Qed.

Lemma no_lf_repeat_char (c : ascii) (n : nat) :
  Ascii.eqb c LF = false -> no_lf (repeat_char c n) = true.
Proof. intros Hc. induction n as [|n IH]; simpl; [reflexivity | now rewrite Hc, IH]. Qed.

Lemma no_lf_substring (s : string) :
  no_lf s = true -> forall n m, no_lf (substring n m s) = true.
Proof.
  induction s as [|c s IH]; intros Hs n m.
  - destruct n, m; reflexivity.
  - simpl in Hs. apply andb_true_iff in Hs as [Hc Hs].
    destruct n as [|n]; simpl.
    + destruct m as [|m]; simpl; [reflexivity|].
      rewrite Hc. simpl. now apply IH.
    + now apply IH.
Qed.

Lemma no_lf_str_head (s : string) : no_lf s = true -> no_lf (str_head s) = true.
Proof.
  destruct s as [|c s]; simpl; [reflexivity|].
  intros H. apply andb_true_iff in H as [Hc _]. now rewrite Hc.
Qed.

Lemma no_lf_str_tail (s : string) : no_lf s = true -> no_lf (str_tail s) = true.
Proof.
  destruct s as [|c s]; simpl; [reflexivity|].
  intros H. now apply andb_true_iff in H as [_ Hs].
Qed.

Lemma no_lf_string_of_uint (d : Decimal.uint) :
  no_lf (NilEmpty.string_of_uint d) = true.
Proof. induction d; simpl; auto. Qed.

Lemma no_lf_str_nat_Z (n : Z) : no_lf (str_nat_Z n) = true.
Proof.
  unfold str_nat_Z, NilZero.string_of_uint.
  destruct (N.to_uint (Z.to_N n)); try reflexivity;
    apply (no_lf_string_of_uint (_ _)).
Qed.

Lemma no_lf_str_int (n : Z) : no_lf (str_int n) = true.
Proof.
  unfold str_int. destruct (n <? 0).
  - rewrite no_lf_app, no_lf_str_nat_Z. reflexivity.
  - apply no_lf_str_nat_Z.
Qed.

Lemma no_lf_format_int_width (w : nat) (n : Z) :
  no_lf (format_int_width w n) = true.
Proof.
  unfold format_int_width.
  rewrite no_lf_app, no_lf_str_int, no_lf_repeat_char; reflexivity.
Qed.

End TextFacts.

Section ReprFacts.

Lemma no_lf_exp_text (x : Z) : no_lf (exp_text x) = true.
Proof.
  unfold exp_text. rewrite no_lf_app.
  assert (Ha : no_lf (str_nat_Z (Z.abs x)) = true) by apply no_lf_str_nat_Z.
  destruct (x <? 0); destruct (Nat.ltb _ 2); simpl; rewrite ?Ha; reflexivity.
Qed.

Lemma no_lf_float_layout (ds : string) (decpt : Z) :
  no_lf ds = true -> no_lf (float_layout ds decpt) = true.
Proof.
  intros Hds. unfold float_layout.
  destruct ((decpt <=? -4) || (16 <? decpt)).
  - rewrite !no_lf_app, no_lf_str_head, no_lf_exp_text by assumption.
    destruct (Nat.ltb 1 (String.length ds)).
    + rewrite no_lf_app, no_lf_str_tail by assumption. reflexivity.
    + reflexivity.
  - destruct (decpt <=? 0).
    + rewrite !no_lf_app, Hds, no_lf_repeat_char; reflexivity.
    + destruct (Z.of_nat (String.length ds) <=? decpt).
      * rewrite !no_lf_app, Hds, no_lf_repeat_char; reflexivity.
      * rewrite !no_lf_app, !no_lf_substring by assumption. reflexivity.
Qed.

Lemma no_lf_float_digits (m : positive) (e : Z) :
  no_lf (fst (float_digits m e)) = true.
Proof.
  unfold float_digits.
  destruct (shortest_from 17 _ _ 1) as [c q].
  destruct (strip_zeros 20 c q) as [c' q'].
  apply no_lf_str_nat_Z.
Qed.

Lemma no_lf_float_repr (x : float) : no_lf (float_repr x) = true.
Proof.
  unfold float_repr.
  destruct (Prim2SF x) as [s|s| |s m e]; try (destruct s; reflexivity);
    try reflexivity.
  pose proof (no_lf_float_digits m e) as Hd.
  destruct (float_digits m e) as [ds decpt]. simpl in Hd.
  rewrite no_lf_app, no_lf_float_layout by assumption.
  destruct s; reflexivity.
Qed.

Lemma no_lf_format_line (r : float) (hw : Z) (rads degs : float) :
  no_lf (format_line r hw rads degs) = true.
Proof.
  unfold format_line.
  rewrite !no_lf_app, !no_lf_float_repr, no_lf_format_int_width.
  reflexivity.
Qed.

End ReprFacts.

Section LineFacts.

Lemma lines_line (s rest : string) :
  no_lf s = true -> lines (s ++ String LF rest) = s :: lines rest.
Proof.
  induction s as [|c s IH]; intros Hs.
  - reflexivity.
  - simpl in Hs. apply andb_true_iff in Hs as [Hc Hs].
    apply negb_true_iff in Hc.
    change (lines (String c (s ++ String LF rest)) = String c s :: lines rest).
    cbn [lines]. rewrite Hc, (IH Hs). reflexivity.
Qed.

Lemma lines_unlines (ls : list string) :
  Forall (fun l => no_lf l = true) ls -> lines (unlines ls) = ls.
Proof.
  induction 1 as [|l ls Hl _ IH]; [reflexivity|].
  cbn [unlines fold_right]. fold (unlines ls).
  rewrite lines_line by assumption. now rewrite IH.
Qed.

Lemma unlines_app (a b : list string) :
  unlines (a ++ b) = unlines a ++ unlines b.
Proof.
  induction a as [|l a IH]; [reflexivity|].
  cbn [unlines fold_right app]. fold (unlines (a ++ b)). fold (unlines a).
  rewrite IH, str_app_assoc. reflexivity.
Qed.

End LineFacts.

Section RunFacts.

Lemma for_each_spec (g : Z -> PyExc + string) (body : Z -> Py unit) :
  (forall x w out,
      body x w out =
      match g x with
      | inl e => (out, inl e)
      | inr s => (out ++ s ++ String LF "", inr tt)
      end) ->
  forall l w out,
    for_each l body w out = (out ++ unlines (emitted g l), outcome g l).
Proof.
  intros Hbody l. induction l as [|x l IH]; intros w out.
  - cbn. now rewrite str_app_nil_r.
  - cbn [for_each emitted outcome]. unfold bind. rewrite Hbody.
    destruct (g x) as [e|s].
    + cbn. now rewrite str_app_nil_r.
    + rewrite IH. cbn [unlines fold_right]. fold (unlines (emitted g l)).
      rewrite !str_app_assoc. reflexivity.
Qed.

Lemma body_spec (trig : float -> PyExc + float) (hw : Z) (w : World) (out : string) :
  bind (call (trig (hwians_to_rads hw)))
       (fun r => print (format_line r hw (hwians_to_rads hw) (hwians_to_degs hw)))
       w out =
  match line_of trig hw with
  | inl e => (out, inl e)
  | inr s => (out ++ s ++ String LF "", inr tt)
  end.
Proof.
  unfold bind, call, print, line_of.
  destruct (trig (hwians_to_rads hw)); reflexivity.
Qed.

Lemma pass_spec (name : string) (trig : float -> PyExc + float)
      (w : World) (out : string) :
  bind (print (";" ++ String LF (";" ++ name)))
       (fun _ => for_each (range 0 376 1) (fun hw =>
          let rads := hwians_to_rads hw in
          let degs := hwians_to_degs hw in
          bind (call (trig rads))
               (fun r => print (format_line r hw rads degs))))
       w out =
  (out ++ unlines (pass_lines name trig), pass_outcome trig).
Proof.
  unfold bind at 1. unfold print at 1.
  rewrite (for_each_spec (line_of trig)) by (intros; apply body_spec).
  unfold pass_lines, pass_outcome, units.
  cbn [unlines fold_right]. fold (unlines (emitted (line_of trig) (range 0 376 1))).
  rewrite !str_app_assoc. reflexivity.
Qed.

Lemma sin_pass_spec (L : Libm) (w : World) (out : string) :
  sin_pass L w out =
  (out ++ unlines (pass_lines "sin" (math_sin L)), pass_outcome (math_sin L)).
Proof. apply (pass_spec "sin"). Qed.

Lemma cos_pass_spec (L : Libm) (w : World) (out : string) :
  cos_pass L w out =
  (out ++ unlines (pass_lines "cos" (math_cos L)), pass_outcome (math_cos L)).
Proof. apply (pass_spec "cos"). Qed.

Lemma tan_pass_spec (L : Libm) (w : World) (out : string) :
  tan_pass L w out =
  (out ++ unlines (pass_lines "tan" (math_tan L)), pass_outcome (math_tan L)).
Proof. apply (pass_spec "tan"). Qed.

(** A run prints the transcript and ends as the transcript says. *)
Lemma run_spec (L : Libm) (w : World) :
  run L w = (unlines (fst (transcript L)), snd (transcript L)).
Proof.
  unfold run, main, transcript, bind.
  rewrite sin_pass_spec.
  destruct (pass_outcome (math_sin L)) as [e|[]]; [reflexivity|].
  rewrite cos_pass_spec.
  destruct (pass_outcome (math_cos L)) as [e|[]].
  - cbn [fst snd]. now rewrite unlines_app.
  - rewrite tan_pass_spec. cbn [fst snd].
    rewrite !unlines_app, !str_app_assoc. reflexivity.
Qed.

Lemma emitted_Forall (P : string -> Prop) (g : Z -> PyExc + string) (l : list Z) :
  (forall x s, In x l -> g x = inr s -> P s) -> Forall P (emitted g l).
Proof.
  induction l as [|x l IH]; intros H; cbn [emitted]; [constructor|].
  destruct (g x) as [e|s] eqn:Hg; [constructor|].
  constructor.
  - apply (H x); [now left | assumption].
  - apply IH. intros y t Hy. apply H. now right.
Qed.

Lemma emitted_all (g : Z -> PyExc + string) (f : Z -> string) (l : list Z) :
  (forall x, In x l -> g x = inr (f x)) ->
  emitted g l = map f l /\ outcome g l = inr tt.
Proof.
  induction l as [|x l IH]; intros H; [split; reflexivity|].
  cbn [emitted outcome map]. rewrite (H x) by now left.
  destruct IH as [IH1 IH2]; [intros y Hy; apply H; now right|].
  now rewrite IH1, IH2.
Qed.

Lemma outcome_ok (g : Z -> PyExc + string) (l : list Z) :
  outcome g l = inr tt ->
  forall x, In x l -> exists s, g x = inr s.
Proof.
  induction l as [|y l IH]; intros H x Hx; [contradiction|].
  cbn [outcome] in H. destruct (g y) as [e|s] eqn:Hg; [discriminate|].
  destruct Hx as [<-|Hx]; [now exists s | now apply IH].
Qed.

Lemma pass_lines_Forall (P : string -> Prop) (name : string)
      (trig : float -> PyExc + float) :
  P ";" -> P (";" ++ name) ->
  (forall hw s, In hw units -> line_of trig hw = inr s -> P s) ->
  Forall P (pass_lines name trig).
Proof.
  intros H1 H2 H3. unfold pass_lines.
  constructor; [assumption|]. constructor; [assumption|].
  now apply emitted_Forall.
Qed.

Lemma transcript_Forall (P : string -> Prop) (L : Libm) :
  P ";" -> P ";sin" -> P ";cos" -> P ";tan" ->
  (forall f hw s, In hw units -> line_of (math_1 f false) hw = inr s -> P s) ->
  Forall P (fst (transcript L)).
Proof.
  intros H0 Hs Hc Ht Hd.
  assert (F : forall name f, P (";" ++ name) ->
                             Forall P (pass_lines name (math_1 f false))).
  { intros name f Hn. apply pass_lines_Forall; auto. intros; eapply Hd; eauto. }
  unfold transcript, math_sin, math_cos, math_tan.
  destruct (pass_outcome (math_1 (c_sin L) false)); cbn [fst]; [now apply F|].
  destruct (pass_outcome (math_1 (c_cos L) false)); cbn [fst];
    repeat (apply Forall_app; split); now apply F.
Qed.

Lemma line_of_no_lf (trig : float -> PyExc + float) (hw : Z) (s : string) :
  line_of trig hw = inr s -> no_lf s = true.
Proof.
  unfold line_of. destruct (trig _); [discriminate|].
  intros [= <-]. apply no_lf_format_line.
Qed.

(** The lines of standard output are the lines of the transcript. *)
Lemma lines_stdout (L : Libm) (w : World) :
  lines (stdout_of L w) = fst (transcript L).
Proof.
  unfold stdout_of. rewrite run_spec. cbn [fst].
  apply lines_unlines.
  apply transcript_Forall; try reflexivity.
  intros f hw s _. apply line_of_no_lf.
Qed.

End RunFacts.

Section MathFacts.

Lemma math_1_finite (f : float -> float) (b : bool) (x : float) :
  is_finite (f x) = true -> math_1 f b x = inr (f x).
Proof.
  unfold math_1, is_finite. intros H.
  apply negb_true_iff, orb_false_iff in H as [Hn Hi].
  now rewrite Hn, Hi.
Qed.

Lemma math_1_returns (f : float -> float) (b : bool) (x r : float) :
  is_finite x = true -> math_1 f b x = inr r ->
  r = f x /\ is_finite r = true.
Proof.
  unfold math_1. intros Hx.
  assert (Hnx : is_nan x = false).
  { unfold is_finite in Hx. apply negb_true_iff, orb_false_iff in Hx. tauto. }
  rewrite Hx, Hnx, !andb_true_r.
  destruct (is_nan (f x)) eqn:Hn; [discriminate|].
  destruct (is_infinity (f x)) eqn:Hi; [discriminate|].
  intros [= <-]. split; [reflexivity|].
  unfold is_finite. now rewrite Hn, Hi.
Qed.

End MathFacts.

Section UnitFacts.

Lemma units_seq : units = map Z.of_nat (seq 0 376).
Proof. vm_compute. reflexivity. Qed.

Lemma In_units (u : Z) : In u units <-> 0 <= u <= 375.
Proof.
  rewrite units_seq, in_map_iff. split.
  - intros (i & <- & Hi). apply in_seq in Hi. lia.
  - intros H. exists (Z.to_nat u). split; [lia|]. apply in_seq. lia.
Qed.

Lemma units_forall (p : Z -> bool) :
  forallb p units = true -> forall u, 0 <= u <= 375 -> p u = true.
Proof.
  intros H u Hu. rewrite forallb_forall in H. now apply H, In_units.
Qed.

Lemma rads_finite (hw : Z) : In hw units -> is_finite (hwians_to_rads hw) = true.
Proof.
  intros H. apply In_units in H. revert hw H.
  apply units_forall. vm_compute. reflexivity.
Qed.


End UnitFacts.

Section TableFacts.

Lemma line_of_finite (f : float -> float) (hw : Z) :
  is_finite (f (hwians_to_rads hw)) = true ->
  line_of (math_1 f false) hw = inr (entry f hw).
Proof.
  intros H. unfold line_of. now rewrite math_1_finite.
Qed.

Lemma line_of_returns (f : float -> float) (hw : Z) (s : string) :
  In hw units -> line_of (math_1 f false) hw = inr s ->
  is_finite (f (hwians_to_rads hw)) = true /\ s = entry f hw.
Proof.
  intros Hu. unfold line_of.
  destruct (math_1 f false (hwians_to_rads hw)) as [e|r] eqn:Hm; [discriminate|].
  apply math_1_returns in Hm as [-> Hf]; [|now apply rads_finite].
  intros [= <-]. now split.
Qed.

Lemma pass_finite (f : float -> float) :
  finite_on_table f = true ->
  emitted (line_of (math_1 f false)) units = map (entry f) units /\
  pass_outcome (math_1 f false) = inr tt.
Proof.
  intros H. unfold finite_on_table in H. rewrite forallb_forall in H.
  apply emitted_all. intros hw Hhw. now apply line_of_finite, H.
Qed.

Lemma pass_outcome_ok (f : float -> float) :
  pass_outcome (math_1 f false) = inr tt -> finite_on_table f = true.
Proof.
  intros H. unfold finite_on_table. apply forallb_forall. intros hw Hhw.
  destruct (outcome_ok _ _ H hw Hhw) as [s Hs].
  now apply line_of_returns in Hs.
Qed.

(** With a library that is finite on the table the transcript is the
    complete table and the run ends normally. *)
Lemma transcript_finite (L : Libm) :
  libm_table_finite L = true -> transcript L = (table_lines L, inr tt).
Proof.
  unfold libm_table_finite. intros H.
  apply andb_true_iff in H as [H Ht]. apply andb_true_iff in H as [Hs Hc].
  apply pass_finite in Hs as [Es Os], Hc as [Ec Oc], Ht as [Et Ot].
  unfold transcript, math_sin, math_cos, math_tan, pass_lines.
  rewrite Os, Oc, Ot, Es, Ec, Et. reflexivity.
Qed.

Lemma transcript_ends_ok (L : Libm) :
  snd (transcript L) = inr tt -> libm_table_finite L = true.
Proof.
  unfold transcript, libm_table_finite.
  destruct (pass_outcome (math_sin L)) as [e|[]] eqn:Hs; [discriminate|].
  destruct (pass_outcome (math_cos L)) as [e|[]] eqn:Hc; [discriminate|].
  cbn [snd]. intros Ht.
  rewrite (pass_outcome_ok _ Hs), (pass_outcome_ok _ Hc), (pass_outcome_ok _ Ht).
  reflexivity.
Qed.

Lemma table_lines_length (L : Libm) : List.length (table_lines L) = 1134%nat.
Proof.
  unfold table_lines. rewrite !length_app, !length_map. reflexivity.
Qed.

Lemma ref_libm_table_finite : libm_table_finite RefLibm.libm = true.
Proof. vm_compute. reflexivity. Qed.

End TableFacts.

(* ===================================================================== *)
(** * The model on known values *)
(* ===================================================================== *)

Section Samples.

Local Open Scope float_scope.

(** [repr] on doubles whose Python text is well known. *)
Example float_repr_samples :
  map float_repr
      [0; -0; 1; 90; 0x1.eb851eb851eb8p-3; 0x1.51eb851eb851ep+1;
       0x1.921fb54442d17p+0; 1e16; 1e15; 0x1.4f8b588e368f1p-17; 0x1p-1074;
       0x1.fffffffffffffp+1023; 0x1.3333333333334p-2; 0x1.52d02c7e14af6p+76;
       -1.5; infinity; neg_infinity; nan] =
  ["0.0"; "-0.0"; "1.0"; "90.0"; "0.24"; "2.6399999999999997";
   "1.5707963267948963"; "1e+16"; "1000000000000000.0"; "1e-05"; "5e-324";
   "1.7976931348623157e+308"; "0.30000000000000004"; "1e+23";
   "-1.5"; "inf"; "-inf"; "nan"]%string.
Proof. vm_compute. reflexivity. Qed.

Example format_int_width_samples :
  map (format_int_width 3) [0; 7; 42; 375; 1000; -5]%Z =
  ["  0"; "  7"; " 42"; "375"; "1000"; " -5"]%string.
Proof. vm_compute. reflexivity. Qed.

Example range_samples :
  range 0 5 1 = [0; 1; 2; 3; 4]%Z /\ range 0 10 3 = [0; 3; 6; 9]%Z /\
  range 3 3 1 = [] /\ List.length (range 0 376 1) = 376%nat.
Proof. repeat split. Qed.

Example lines_samples :
  lines ("a" ++ String LF "b" ++ String LF "" ++ String LF "c") =
    ["a"; "b"; ""; "c"]%string /\
  lines (unlines ["x"; ""; "y"]%string) = ["x"; ""; "y"]%string.
Proof. split; reflexivity. Qed.

(** [math_1] turns an infinite or NaN result at a finite argument into
    [ValueError], and hands a finite result through. *)
Example math_1_samples :
  math_1 (fun _ => infinity) false 1 = inl (ValueError "math domain error") /\
  math_1 (fun _ => nan) false 1 = inl (ValueError "math domain error") /\
  math_1 (fun x => x + x) false 1 = inr 2.
Proof. repeat split. Qed.

(** The reference library at the ends of the table. *)
Example ref_libm_samples :
  map (entry (c_sin RefLibm.libm)) [0; 375]%Z =
    ["0.0" ++ String TAB "; HW:  0 Rads:0.0 Degs:0.0";
     "1.0" ++ String TAB "; HW:375 Rads:1.5707963267948963 Degs:90.0"]%string /\
  map (entry (c_cos RefLibm.libm)) [0]%Z =
    ["1.0" ++ String TAB "; HW:  0 Rads:0.0 Degs:0.0"]%string /\
  map (entry (c_tan RefLibm.libm)) [0; 375]%Z =
    ["0.0" ++ String TAB "; HW:  0 Rads:0.0 Degs:0.0";
     "3530114321217157.5" ++ String TAB
       "; HW:375 Rads:1.5707963267948963 Degs:90.0"]%string.
Proof. repeat split; vm_compute; reflexivity. Qed.

(** A library whose [tan] overflows at the last unit: that iteration
    raises [ValueError] instead of printing a line. *)
Example overflowing_tan_raises :
  let L := {| c_sin := RefLibm.ref_sin; c_cos := RefLibm.ref_cos;
              c_tan := fun x => if x =? 0x1.921fb54442d17p+0 then infinity
                                else RefLibm.ref_tan x |} in
  libm_table_finite L = false /\
  line_of (math_tan L) 375 = inl (ValueError "math domain error").
Proof. split; vm_compute; reflexivity. Qed.

End Samples.

(* ===================================================================== *)
(** * The converters *)
(* ===================================================================== *)

Section Converters.

Local Open Scope float_scope.

(** C1, as stated, fails at unit 11: the code's [(180 / 750) * 11] is
    2.6399999999999997, while [11 * 180.0 / 750.0] is 2.64, and Python's
    [==] tells them apart. *)
Lemma hwians_to_degs_differs_at_11 :
  hwians_to_degs 11 = 0x1.51eb851eb851ep+1 /\
  spec_unit_to_degrees 11 = 0x1.51eb851eb851fp+1 /\
  (hwians_to_degs 11 =? spec_unit_to_degrees 11) = false.
Proof. repeat split; vm_compute; reflexivity. Qed.

(** C1, amended: for every unit in [0, 375] the degree converter returns
    the product of the rounded quotient [180 / 750] and the unit; this is
    [unit * 180.0 / 750.0] or the double immediately below it, and it is
    the former on 289 of the 376 units. *)
Theorem hwians_to_degs_near_spec (unit : Z) :
  (0 <= unit <= 375)%Z ->
  hwians_to_degs unit = (180 / 750) * float_of_int unit /\
  ((hwians_to_degs unit =? spec_unit_to_degrees unit) ||
   (hwians_to_degs unit =? next_down (spec_unit_to_degrees unit))) = true /\
  List.length
    (filter (fun u => hwians_to_degs u =? spec_unit_to_degrees u) units) = 289%nat.
Proof.
  intros H. split; [reflexivity|]. split.
  - revert unit H. apply units_forall. vm_compute. reflexivity.
  - vm_compute. reflexivity.
Qed.

(** Unit 11, where the two formulas differ by one double. *)
Lemma hwians_to_degs_near_spec_at_11 :
  (0 <= 11 <= 375)%Z /\
  ((hwians_to_degs 11 =? spec_unit_to_degrees 11) ||
   (hwians_to_degs 11 =? next_down (spec_unit_to_degrees 11))) = true.
Proof.
  split; [lia|]. apply (hwians_to_degs_near_spec 11). lia.
Defined.

(** C2, as stated, fails at unit 3: the code's [(math.pi / 750) * 3] is
    0.012566370614359171, while [3 * math.pi / 750.0] is
    0.012566370614359173. *)
Lemma hwians_to_rads_differs_at_3 :
  hwians_to_rads 3 = 0x1.9bc65b68b71c2p-7 /\
  spec_unit_to_radians 3 = 0x1.9bc65b68b71c3p-7 /\
  (hwians_to_rads 3 =? spec_unit_to_radians 3) = false.
Proof. repeat split; vm_compute; reflexivity. Qed.

(** C2, amended: for every unit in [0, 375] the radian converter returns
    the product of the rounded quotient [math.pi / 750] and the unit;
    this lies from two doubles below to one double above
    [unit * math.pi / 750.0], and equals it on 207 of the 376 units. *)
Theorem hwians_to_rads_near_spec (unit : Z) :
  (0 <= unit <= 375)%Z ->
  hwians_to_rads unit = (math_pi / 750) * float_of_int unit /\
  ((next_down (next_down (spec_unit_to_radians unit)) <=? hwians_to_rads unit) &&
   (hwians_to_rads unit <=? next_up (spec_unit_to_radians unit))) = true /\
  List.length
    (filter (fun u => hwians_to_rads u =? spec_unit_to_radians u) units) = 207%nat.
Proof.
  intros H. split; [reflexivity|]. split.
  - revert unit H. apply units_forall. vm_compute. reflexivity.
  - vm_compute. reflexivity.
Qed.

(** Unit 3, where the two formulas differ by one double. *)
Lemma hwians_to_rads_near_spec_at_3 :
  (0 <= 3 <= 375)%Z /\
  ((next_down (next_down (spec_unit_to_radians 3)) <=? hwians_to_rads 3) &&
   (hwians_to_rads 3 <=? next_up (spec_unit_to_radians 3))) = true.
Proof.
  split; [lia|]. apply (hwians_to_rads_near_spec 3). lia.
Defined.

(** C5: the degree converter maps the ends of the domain exactly:
    unit 0 to 0.0 and unit 375 to 90.0. *)
Theorem hwians_to_degs_endpoints :
  hwians_to_degs 0 = 0 /\ hwians_to_degs 375 = 90.
Proof. split; vm_compute; reflexivity. Qed.

(** C10: both converters are monotone on the domain: for units
    [u1 <= u2] in [0, 375] the degrees and the radians of [u1] are at
    most those of [u2]. *)
Theorem converters_monotone (u1 u2 : Z) :
  (0 <= u1)%Z -> (u1 <= u2)%Z -> (u2 <= 375)%Z ->
  (hwians_to_degs u1 <=? hwians_to_degs u2) = true /\
  (hwians_to_rads u1 <=? hwians_to_rads u2) = true.
Proof.
  intros H0 H12 H2.
  assert (Hall : forallb (fun a => forallb (fun b =>
            (b <? a)%Z ||
            ((hwians_to_degs a <=? hwians_to_degs b) &&
             (hwians_to_rads a <=? hwians_to_rads b))) units) units = true)
    by (vm_compute; reflexivity).
  pose proof (units_forall _ Hall u1 ltac:(lia)) as H1. cbv beta in H1.
  pose proof (units_forall _ H1 u2 ltac:(lia)) as H. cbv beta in H.
  apply orb_true_iff in H as [H|H].
  - apply Z.ltb_lt in H. lia.
  - now apply andb_true_iff in H.
Qed.

(** Units 10 and 200. *)
Lemma converters_monotone_at_10_200 :
  (hwians_to_degs 10 <=? hwians_to_degs 200) = true /\
  (hwians_to_rads 10 <=? hwians_to_rads 200) = true.
Proof. apply (converters_monotone 10 200); lia. Defined.

End Converters.

(* ===================================================================== *)
(** * Sine, cosine and tangent at the arguments of the table *)
(* ===================================================================== *)

Section TaylorFacts.

Local Open Scope R_scope.

Lemma pow_m1 (n : nat) : (-1) ^ n = if Nat.even n then 1 else -1.
Proof.
  induction n as [|n IH]; [cbn; lra|].
  rewrite Nat.even_succ, <- Nat.negb_even. cbn [pow]. rewrite IH.
  destruct (Nat.even n); cbn [negb]; lra.
Qed.

Lemma IZR_sign (b : bool) (p : Z) :
  IZR (if b then p else (- p)%Z) = (if b then 1 else -1) * IZR p.
Proof. destruct b; [|rewrite opp_IZR]; lra. Qed.

Lemma pow_ratio (a b : R) (n : nat) : b <> 0 -> (a / b) ^ n * b ^ n = a ^ n.
Proof.
  intros Hb. rewrite <- Rpow_mult_distr. f_equal. field. exact Hb.
Qed.

Lemma cos_sum_spec (a b : Z) (n : nat) :
  (0 < b)%Z ->
  let '(N, D, P) := cos_sum a b n in
  (0 < D)%Z /\
  IZR D = IZR b ^ (2 * n) * INR (fact (2 * n)) /\
  IZR P = IZR a ^ (2 * n) /\
  IZR N = cos_approx (IZR a / IZR b) n * IZR D.
Proof.
  intros Hb.
  assert (Hb' : IZR b <> 0) by (apply not_0_IZR; lia).
  induction n as [|k IH].
  - cbn [cos_sum]. unfold cos_approx, cos_term. cbn.
    repeat split; try lia; lra.
  - cbn [cos_sum]. destruct (cos_sum a b k) as [[N D] P].
    destruct IH as (HD & ED & EP & EN).
    set (c := (Z.of_nat (2 * k + 1) * Z.of_nat (2 * k + 2))%Z).
    assert (Hc : IZR c = INR (S (2 * k)) * INR (S (S (2 * k)))).
    { unfold c. rewrite mult_IZR, <- !INR_IZR_INZ.
      replace (2 * k + 1)%nat with (S (2 * k)) by lia.
      replace (2 * k + 2)%nat with (S (S (2 * k))) by lia. reflexivity. }
    assert (Hcpos : (0 < c)%Z) by (unfold c; lia).
    assert (Hfact : INR (fact (2 * S k)) =
                    INR (S (S (2 * k))) * (INR (S (2 * k)) * INR (fact (2 * k)))).
    { replace (2 * S k)%nat with (S (S (2 * k))) by lia.
      rewrite !fact_simpl, !mult_INR. reflexivity. }
    assert (Hpow : forall r : R, r ^ (2 * S k) = r * (r * r ^ (2 * k))).
    { intros r. replace (2 * S k)%nat with (S (S (2 * k))) by lia.
      reflexivity. }
    assert (ED' : IZR (D * (b * b * c)) =
                  IZR b ^ (2 * S k) * INR (fact (2 * S k))).
    { rewrite !mult_IZR, Hc, ED, Hfact, Hpow. ring. }
    assert (EP' : IZR (P * a * a) = IZR a ^ (2 * S k)).
    { rewrite !mult_IZR, EP, Hpow. ring. }
    split; [nia|]. split; [exact ED'|]. split; [exact EP'|].
    unfold cos_approx. cbn [sum_f_R0]. fold (cos_approx (IZR a / IZR b) k).
    rewrite Rmult_plus_distr_r.
    rewrite plus_IZR, IZR_sign, EP'.
    f_equal.
    + rewrite !mult_IZR, EN. ring.
    + unfold cos_term. rewrite ED', pow_m1.
      rewrite <- (pow_ratio (IZR a) (IZR b) (2 * S k) Hb').
      field. apply INR_fact_neq_0.
Qed.

Lemma sin_sum_spec (a b : Z) (n : nat) :
  (0 < b)%Z ->
  let '(N, D, P) := sin_sum a b n in
  (0 < D)%Z /\
  IZR D = IZR b ^ (2 * n + 1) * INR (fact (2 * n + 1)) /\
  IZR P = IZR a ^ (2 * n + 1) /\
  IZR N = sin_approx (IZR a / IZR b) n * IZR D.
Proof.
  intros Hb.
  assert (Hb' : IZR b <> 0) by (apply not_0_IZR; lia).
  induction n as [|k IH].
  - cbn [sin_sum]. unfold sin_approx, sin_term. cbn.
    repeat split; try lia; try lra. field. exact Hb'.
  - cbn [sin_sum]. destruct (sin_sum a b k) as [[N D] P].
    destruct IH as (HD & ED & EP & EN).
    set (c := (Z.of_nat (2 * k + 2) * Z.of_nat (2 * k + 3))%Z).
    assert (Hc : IZR c = INR (S (2 * k + 1)) * INR (S (S (2 * k + 1)))).
    { unfold c. rewrite mult_IZR, <- !INR_IZR_INZ.
      replace (2 * k + 2)%nat with (S (2 * k + 1)) by lia.
      replace (2 * k + 3)%nat with (S (S (2 * k + 1))) by lia. reflexivity. }
    assert (Hcpos : (0 < c)%Z) by (unfold c; lia).
    assert (Hfact : INR (fact (2 * S k + 1)) =
                    INR (S (S (2 * k + 1))) *
                    (INR (S (2 * k + 1)) * INR (fact (2 * k + 1)))).
    { replace (2 * S k + 1)%nat with (S (S (2 * k + 1))) by lia.
      rewrite !fact_simpl, !mult_INR. reflexivity. }
    assert (Hpow : forall r : R,
               r ^ (2 * S k + 1) = r * (r * r ^ (2 * k + 1))).
    { intros r. replace (2 * S k + 1)%nat with (S (S (2 * k + 1))) by lia.
      reflexivity. }
    assert (ED' : IZR (D * (b * b * c)) =
                  IZR b ^ (2 * S k + 1) * INR (fact (2 * S k + 1))).
    { rewrite !mult_IZR, Hc, ED, Hfact, Hpow. ring. }
    assert (EP' : IZR (P * a * a) = IZR a ^ (2 * S k + 1)).
    { rewrite !mult_IZR, EP, Hpow. ring. }
    split; [nia|]. split; [exact ED'|]. split; [exact EP'|].
    unfold sin_approx. cbn [sum_f_R0]. fold (sin_approx (IZR a / IZR b) k).
    rewrite Rmult_plus_distr_r.
    rewrite plus_IZR, IZR_sign, EP'.
    f_equal.
    + rewrite !mult_IZR, EN. ring.
    + unfold sin_term. rewrite ED', pow_m1.
      rewrite <- (pow_ratio (IZR a) (IZR b) (2 * S k + 1) Hb').
      field. apply INR_fact_neq_0.
Qed.

Lemma Q2R_make (N D : Z) :
  (0 < D)%Z -> Q2R (Qmake N (Z.to_pos D)) = IZR N / IZR D.
Proof.
  intros HD. unfold Q2R. cbn [Qnum Qden]. now rewrite Z2Pos.id by lia.
Qed.

Lemma cosQ_spec (q : Q) (n : nat) : Q2R (cosQ q n) = cos_approx (Q2R q) n.
Proof.
  unfold cosQ.
  pose proof (cos_sum_spec (Qnum q) (Zpos (Qden q)) n (Pos2Z.is_pos _)) as H.
  destruct (cos_sum (Qnum q) (Zpos (Qden q)) n) as [[N D] P].
  destruct H as (HD & _ & _ & EN).
  rewrite Q2R_make, EN by assumption.
  change (Q2R q) with (IZR (Qnum q) / IZR (Zpos (Qden q))).
  field. apply not_0_IZR. lia.
Qed.

Lemma sinQ_spec (q : Q) (n : nat) : Q2R (sinQ q n) = sin_approx (Q2R q) n.
Proof.
  unfold sinQ.
  pose proof (sin_sum_spec (Qnum q) (Zpos (Qden q)) n (Pos2Z.is_pos _)) as H.
  destruct (sin_sum (Qnum q) (Zpos (Qden q)) n) as [[N D] P].
  destruct H as (HD & _ & _ & EN).
  rewrite Q2R_make, EN by assumption.
  change (Q2R q) with (IZR (Qnum q) / IZR (Zpos (Qden q))).
  field. apply not_0_IZR. lia.
Qed.

Lemma Q2R_inject (z : Z) : Q2R (inject_Z z) = IZR z.
Proof. unfold Q2R. cbn [inject_Z Qnum Qden]. lra. Qed.

Lemma Qle_bool_R (x y : Q) : Qle_bool x y = true -> Q2R x <= Q2R y.
Proof. intros H. now apply Qle_Rle, Qle_bool_iff. Qed.

Lemma Qle_bool_R_lt (x y : Q) : Qle_bool x y = false -> Q2R y < Q2R x.
Proof.
  intros H. apply Qlt_Rlt, Qnot_le_lt. intros Hle.
  apply Qle_bool_iff in Hle. congruence.
Qed.

Lemma in_domain_R (q : Q) : in_domain q = true -> 0 <= Q2R q <= 2.
Proof.
  unfold in_domain. intros H. apply andb_true_iff in H as [H0 H2].
  apply Qle_bool_R in H0, H2.
  change 0%Q with (inject_Z 0) in H0. change 2%Q with (inject_Z 2) in H2.
  rewrite Q2R_inject in H0, H2. lra.
Qed.

Lemma sin_box (q : Q) (n : nat) :
  0 <= Q2R q <= 2 ->
  Q2R (sinQ q (2 * n + 1)) <= sin (Q2R q) <= Q2R (sinQ q (2 * (n + 1))).
Proof.
  intros H. rewrite !sinQ_spec. apply pre_sin_bound; lra.
Qed.

Lemma cos_box (q : Q) (n : nat) :
  0 <= Q2R q <= 2 ->
  Q2R (cosQ q (2 * n + 1)) <= cos (Q2R q) <= Q2R (cosQ q (2 * (n + 1))).
Proof.
  intros H. rewrite !cosQ_spec. apply pre_cos_bound; lra.
Qed.

Lemma sin_between_sound (n : nat) (q lo hi : Q) :
  sin_between n q lo hi = true -> Q2R lo <= sin (Q2R q) <= Q2R hi.
Proof.
  unfold sin_between. intros H.
  apply andb_true_iff in H as [H Hhi]. apply andb_true_iff in H as [Hd Hlo].
  apply Qle_bool_R in Hlo, Hhi.
  pose proof (sin_box q n (in_domain_R q Hd)). lra.
Qed.

Lemma cos_between_sound (n : nat) (q lo hi : Q) :
  cos_between n q lo hi = true -> Q2R lo <= cos (Q2R q) <= Q2R hi.
Proof.
  unfold cos_between. intros H.
  apply andb_true_iff in H as [H Hhi]. apply andb_true_iff in H as [Hd Hlo].
  apply Qle_bool_R in Hlo, Hhi.
  pose proof (cos_box q n (in_domain_R q Hd)). lra.
Qed.

Lemma quotient_between (s c lo hi slo shi clo chi : R) :
  slo <= s <= shi -> clo <= c <= chi -> 0 < clo -> 0 <= lo -> 0 <= hi ->
  lo * chi <= slo -> shi <= hi * clo ->
  lo <= s / c <= hi.
Proof.
  intros Hs Hc Hclo Hlo Hhi H1 H2.
  assert (Hcpos : 0 < c) by lra.
  split.
  - apply Rmult_le_reg_r with c; [assumption|].
    replace (s / c * c) with s by (field; lra). nra.
  - apply Rmult_le_reg_r with c; [assumption|].
    replace (s / c * c) with s by (field; lra). nra.
Qed.

Lemma tan_between_sound (n : nat) (q lo hi : Q) :
  tan_between n q lo hi = true -> Q2R lo <= tan (Q2R q) <= Q2R hi.
Proof.
  unfold tan_between. intros H.
  apply andb_true_iff in H as [H H2]. apply andb_true_iff in H as [H H1].
  apply andb_true_iff in H as [H Hclo]. apply andb_true_iff in H as [H Hhi].
  apply andb_true_iff in H as [Hd Hlo].
  apply negb_true_iff, Qle_bool_R_lt in Hclo.
  apply Qle_bool_R in Hlo, Hhi, H1, H2.
  rewrite Q2R_mult in H1, H2.
  change 0%Q with (inject_Z 0) in Hlo, Hhi, Hclo.
  rewrite Q2R_inject in Hlo, Hhi, Hclo.
  pose proof (in_domain_R q Hd) as Hq.
  unfold tan.
  apply (quotient_between _ _ _ _ _ _ _ _ (sin_box q n Hq) (cos_box q n Hq));
    assumption.
Qed.

Lemma first_of_sound (p : nat -> bool) :
  first_of p = true -> exists n, p n = true.
Proof.
  unfold first_of.
  destruct (p 1%nat) eqn:H1; [now exists 1%nat|].
  destruct (p 3%nat) eqn:H3; [now exists 3%nat|].
  intros H7. now exists 7%nat.
Qed.

Lemma within_half (t v : R) :
  0 <= v -> 2 / 3 * v <= t <= 2 * v -> Rabs (v - t) <= Rabs t / 2.
Proof.
  intros Hv Ht. rewrite (Rabs_pos_eq t) by lra. apply Rabs_le. lra.
Qed.

End TaylorFacts.

Section AccuracyFacts.

Local Open Scope R_scope.

Lemma float_Q_finite (x : float) (q : Q) :
  float_Q x = Some q -> is_finite x = true.
Proof. unfold float_Q. destruct (is_finite x); [reflexivity | discriminate]. Qed.

Lemma float_real_Q (x : float) (r : R) :
  float_real x = Some r -> exists q, float_Q x = Some q /\ r = Q2R q.
Proof.
  unfold float_real. destruct (float_Q x) as [q|]; [|discriminate].
  intros [= <-]. now exists q.
Qed.

Lemma approximates_finite (t : R) (f : float) :
  Rabs t < IZR (2 ^ 1023) -> approximates t f -> is_finite f = true.
Proof.
  intros Ht [(v & Hv & _)|[_ Hbig]]; [|lra].
  apply float_real_Q in Hv as (q & Hq & _). now apply float_Q_finite in Hq.
Qed.

Lemma accurate_value_sound (between : nat -> Q -> Q -> Q -> bool)
      (fn : R -> R) (x y : float) :
  (forall n q lo hi, between n q lo hi = true ->
                     Q2R lo <= fn (Q2R q) <= Q2R hi) ->
  accurate_value between x y = true ->
  exists q, float_Q x = Some q /\ approximates (fn (Q2R q)) y.
Proof.
  intros Hb. unfold accurate_value.
  destruct (float_Q x) as [q|] eqn:Hx; [|discriminate].
  destruct (float_Q y) as [v|] eqn:Hy; [|discriminate].
  intros H. apply andb_true_iff in H as [Hv H].
  apply first_of_sound in H as [n H]. apply Hb in H.
  apply Qle_bool_R in Hv. change 0%Q with (inject_Z 0) in Hv.
  rewrite Q2R_inject in Hv.
  rewrite !Q2R_mult in H.
  change 2%Q with (inject_Z 2) in H. rewrite Q2R_inject in H.
  replace (Q2R (2 # 3)) with (2 / 3) in H by (unfold Q2R; cbn; lra).
  exists q. split; [reflexivity|]. left. exists (Q2R v). split.
  - unfold float_real. now rewrite Hy.
  - now apply within_half.
Qed.

Lemma libm_checked_sound (L : Libm) (x : float) :
  libm_checked_at L x = true -> libm_accurate_at L x.
Proof.
  unfold libm_checked_at. intros H.
  apply andb_true_iff in H as [H Ht]. apply andb_true_iff in H as [Hs Hc].
  apply (accurate_value_sound _ sin) in Hs as (q & Hq & Hs);
    [|apply sin_between_sound].
  apply (accurate_value_sound _ cos) in Hc as (q' & Hq' & Hc);
    [|apply cos_between_sound].
  apply (accurate_value_sound _ tan) in Ht as (q'' & Hq'' & Ht);
    [|apply tan_between_sound].
  assert (q' = q) by congruence. assert (q'' = q) by congruence. subst.
  exists (Q2R q). split; [|now repeat split].
  unfold float_real. now rewrite Hq.
Qed.

Lemma tan_in_reach_sound (x : float) :
  tan_in_reach x = true ->
  exists q, float_Q x = Some q /\ Rabs (tan (Q2R q)) < IZR (2 ^ 1023).
Proof.
  unfold tan_in_reach. destruct (float_Q x) as [q|]; [|discriminate].
  intros H. apply first_of_sound in H as [n H].
  apply tan_between_sound in H.
  change 0%Q with (inject_Z 0) in H. rewrite !Q2R_inject in H.
  exists q. split; [reflexivity|].
  rewrite Rabs_pos_eq by lra.
  apply Rle_lt_trans with (IZR (2 ^ 1000)); [lra|].
  apply IZR_lt. reflexivity.
Qed.

Lemma table_tan_in_reach (hw : Z) :
  In hw units -> tan_in_reach (hwians_to_rads hw) = true.
Proof.
  intros H. apply In_units in H. revert hw H.
  apply units_forall. vm_compute. reflexivity.
Qed.

Lemma trig_in_reach (x : R) :
  Rabs (sin x) < IZR (2 ^ 1023) /\ Rabs (cos x) < IZR (2 ^ 1023).
Proof.
  assert (H1 : 1 < IZR (2 ^ 1023)) by (apply IZR_lt; reflexivity).
  pose proof (SIN_bound x). pose proof (COS_bound x).
  split; apply Rle_lt_trans with 1; try assumption; apply Rabs_le; lra.
Qed.

(** An accurate library returns finite values all over the table. *)
Lemma accurate_table_finite (L : Libm) :
  libm_accurate_on_table L -> libm_table_finite L = true.
Proof.
  intros HL.
  assert (F : forall hw, In hw units ->
     is_finite (c_sin L (hwians_to_rads hw)) = true /\
     is_finite (c_cos L (hwians_to_rads hw)) = true /\
     is_finite (c_tan L (hwians_to_rads hw)) = true).
  { intros hw Hhw. destruct (HL hw Hhw) as (xr & Hx & Hs & Hc & Ht).
    destruct (tan_in_reach_sound _ (table_tan_in_reach hw Hhw)) as (q & Hq & Hreach).
    assert (xr = Q2R q) as ->.
    { unfold float_real in Hx. rewrite Hq in Hx. now injection Hx. }
    destruct (trig_in_reach (Q2R q)) as [Rs Rc].
    split; [exact (approximates_finite _ _ Rs Hs)|].
    split; [exact (approximates_finite _ _ Rc Hc)|].
    exact (approximates_finite _ _ Hreach Ht). }
  unfold libm_table_finite, finite_on_table.
  rewrite !andb_true_iff, !forallb_forall.
  repeat split; intros hw Hhw; now apply F.
Qed.

Lemma ref_libm_accurate : libm_accurate_on_table RefLibm.libm.
Proof.
  intros hw Hhw. apply libm_checked_sound.
  apply In_units in Hhw. revert hw Hhw.
  apply (units_forall (fun hw => libm_checked_at RefLibm.libm (hwians_to_rads hw))).
  vm_compute. reflexivity.
Qed.

(** The tangent at the radians of unit 375 is between 3 * 10^15 and
    4 * 10^15. *)
Lemma tan_at_375 :
  exists q, float_Q (hwians_to_rads 375) = Some q /\
            IZR (3 * 10 ^ 15) <= tan (Q2R q) <= IZR (4 * 10 ^ 15).
Proof.
  destruct (float_Q (hwians_to_rads 375)) as [q|] eqn:Hq;
    [|vm_compute in Hq; discriminate].
  exists q. split; [reflexivity|].
  rewrite <- !Q2R_inject. apply (tan_between_sound 7).
  vm_compute in Hq. injection Hq as <-. vm_compute. reflexivity.
Qed.

End AccuracyFacts.

(* ===================================================================== *)
(** * The emitted table *)
(* ===================================================================== *)

Section Table.

(** C3: the program emits three passes in the order sine, cosine,
    tangent; each pass is the two header lines [;] and [;name] followed by
    one data line per unit 0, 1, ..., 375 in ascending order: 376 data
    lines a pass, 1128 in all (for a C library that returns finite values
    on the table, so that no [math] call raises). *)
Theorem three_passes_in_order (L : Libm) (w : World) :
  libm_table_finite L = true ->
  lines (stdout_of L w) =
    ([";"; ";sin"] ++ map (entry (c_sin L)) units ++
     [";"; ";cos"] ++ map (entry (c_cos L)) units ++
     [";"; ";tan"] ++ map (entry (c_tan L)) units)%list /\
  units = map Z.of_nat (seq 0 376) /\
  List.length (map (entry (c_sin L)) units) = 376%nat /\
  List.length (map (entry (c_cos L)) units) = 376%nat /\
  List.length (map (entry (c_tan L)) units) = 376%nat /\
  List.length (lines (stdout_of L w)) = (6 + 1128)%nat /\
  result_of L w = inr tt.
Proof.
  intros H.
  assert (Hl : lines (stdout_of L w) = table_lines L)
    by (rewrite lines_stdout, transcript_finite by assumption; reflexivity).
  split; [exact Hl|]. split; [exact units_seq|].
  rewrite !length_map. repeat (split; [reflexivity|]). split.
  - rewrite Hl. apply table_lines_length.
  - unfold result_of. rewrite run_spec, transcript_finite by assumption.
    reflexivity.
Qed.

(** The reference library is finite on the table, so its run is complete. *)
Lemma three_passes_in_order_ref :
  libm_table_finite RefLibm.libm = true /\
  List.length (lines (stdout_of RefLibm.libm world0)) = (6 + 1128)%nat.
Proof.
  split; [exact ref_libm_table_finite|].
  apply (three_passes_in_order RefLibm.libm world0). exact ref_libm_table_finite.
Defined.

(** C4: the tangent line for unit 375 is the last line of the output.
    With a C library that is accurate to within half of the true value
    at the table's arguments, its trig value is a very large but finite
    double, between 10^15 and 10^16 (the tangent at the double
    1.5707963267948963, just below pi/2, is about 3.5 * 10^15), and it is
    what the library's [tan] returned, passed through [math.tan]
    unchanged: no infinity is put in its place, no exception is raised,
    and unit 375 takes the same code path as every other unit. *)
Theorem tan_375_passes_through (L : Libm) (w : World) :
  libm_accurate_on_table L ->
  hwians_to_rads 375 = 0x1.921fb54442d17p+0%float /\
  math_tan L (hwians_to_rads 375) = inr (c_tan L 0x1.921fb54442d17p+0%float) /\
  is_finite (c_tan L 0x1.921fb54442d17p+0%float) = true /\
  (exists v : R,
     float_real (c_tan L 0x1.921fb54442d17p+0%float) = Some v /\
     (1000000000000000 <= v <= 10000000000000000)%R) /\
  last (lines (stdout_of L w)) "" =
    float_repr (c_tan L 0x1.921fb54442d17p+0%float) ++
    String TAB "; HW:375 Rads:1.5707963267948963 Degs:90.0" /\
  last (lines (stdout_of L w)) "" = entry (c_tan L) 375 /\
  result_of L w = inr tt.
Proof.
  intros HL.
  pose proof (accurate_table_finite L HL) as H.
  assert (Hr : hwians_to_rads 375 = 0x1.921fb54442d17p+0%float)
    by (vm_compute; reflexivity).
  assert (H375 : In 375 units) by (apply In_units; lia).
  assert (Hbig : exists v : R,
             float_real (c_tan L (hwians_to_rads 375)) = Some v /\
             (1000000000000000 <= v <= 10000000000000000)%R).
  { destruct (HL 375 H375) as (xr & Hx & _ & _ & Ht).
    destruct tan_at_375 as (q & Hq & Hlo & Hhi).
    assert (xr = Q2R q) as ->.
    { unfold float_real in Hx. rewrite Hq in Hx. now injection Hx. }
    change (3 * 10 ^ 15) with 3000000000000000 in Hlo.
    change (4 * 10 ^ 15) with 4000000000000000 in Hhi.
    destruct Ht as [(v & Hv & Hnear)|[_ Hover]].
    - exists v. split; [exact Hv|].
      rewrite (Rabs_pos_eq (tan (Q2R q))) in Hnear by lra.
      unfold Rabs in Hnear.
      destruct (Rcase_abs (v - tan (Q2R q))); lra.
    - rewrite (Rabs_pos_eq (tan (Q2R q))) in Hover by lra.
      assert (4000000000000000 < IZR (2 ^ 1023))%R
        by (apply IZR_lt; reflexivity).
      lra. }
  assert (Hf : is_finite (c_tan L (hwians_to_rads 375)) = true).
  { destruct Hbig as (v & Hv & _).
    apply float_real_Q in Hv as (q & Hq & _). now apply float_Q_finite in Hq. }
  assert (Hlast : last (lines (stdout_of L w)) "" = entry (c_tan L) 375).
  { rewrite lines_stdout, transcript_finite by assumption. cbn [fst].
    unfold table_lines.
    assert (Hu : map (entry (c_tan L)) units =
                 (map (entry (c_tan L)) (range 0 375 1) ++ [entry (c_tan L) 375])%list).
    { replace units with (range 0 375 1 ++ [375])%list by (vm_compute; reflexivity).
      now rewrite map_app. }
    rewrite Hu, !app_assoc. apply last_last. }
  split; [exact Hr|]. split.
  { unfold math_tan. rewrite math_1_finite by assumption. now rewrite Hr. }
  split; [now rewrite <- Hr|]. split; [now rewrite <- Hr|].
  split; [|split; [exact Hlast|]].
  - rewrite Hlast. unfold entry, format_line. rewrite Hr.
    f_equal; vm_compute; reflexivity.
  - unfold result_of. rewrite run_spec, transcript_finite by assumption.
    reflexivity.
Qed.

(** With the reference library, which is that accurate, the last line
    carries 3530114321217157.5. *)
Lemma tan_375_passes_through_ref :
  libm_accurate_on_table RefLibm.libm /\
  last (lines (stdout_of RefLibm.libm world0)) "" =
    "3530114321217157.5" ++
    String TAB "; HW:375 Rads:1.5707963267948963 Degs:90.0".
Proof.
  split; [exact ref_libm_accurate|].
  destruct (tan_375_passes_through RefLibm.libm world0 ref_libm_accurate)
    as (_ & _ & _ & _ & Hlast & _).
  rewrite Hlast. f_equal; vm_compute; reflexivity.
Defined.

(** C6: with a C library whose [sin] maps 0.0 to 0.0, line 1 of the
    captured output is [;], line 2 is [;sin] and line 3 is the sine entry
    of unit 0: trig value [0.0] (not [-0.0]), the field [HW:  0], radians
    [0.0] and degrees [0.0]. *)
Theorem first_three_lines (L : Libm) (w : World) :
  c_sin L 0%float = 0%float ->
  exists rest : list string,
    lines (stdout_of L w) =
      ";" :: ";sin" ::
      ("0.0" ++ String TAB "; HW:  0 Rads:0.0 Degs:0.0") :: rest.
Proof.
  intros H0.
  assert (Hline : line_of (math_sin L) 0 =
                  inr ("0.0" ++ String TAB "; HW:  0 Rads:0.0 Degs:0.0")).
  { unfold line_of, math_sin.
    replace (hwians_to_rads 0) with 0%float by (vm_compute; reflexivity).
    replace (hwians_to_degs 0) with 0%float by (vm_compute; reflexivity).
    unfold math_1. rewrite H0. cbn. f_equal. }
  assert (Hp : exists r, pass_lines "sin" (math_sin L) =
      ";" :: ";sin" :: ("0.0" ++ String TAB "; HW:  0 Rads:0.0 Degs:0.0") :: r).
  { unfold pass_lines.
    replace units with (0 :: range 1 376 1) by (vm_compute; reflexivity).
    cbn [emitted]. rewrite Hline. eexists. reflexivity. }
  destruct Hp as [r Hp].
  rewrite lines_stdout. unfold transcript.
  destruct (pass_outcome (math_sin L)); cbn [fst].
  - exists r. exact Hp.
  - destruct (pass_outcome (math_cos L)); cbn [fst]; rewrite Hp;
      eexists; reflexivity.
Qed.

(** The reference library's [sin] maps 0.0 to 0.0. *)
Lemma first_three_lines_ref :
  c_sin RefLibm.libm 0%float = 0%float /\
  exists rest : list string,
    lines (stdout_of RefLibm.libm world0) =
      ";" :: ";sin" ::
      ("0.0" ++ String TAB "; HW:  0 Rads:0.0 Degs:0.0") :: rest.
Proof.
  split; [vm_compute; reflexivity|].
  apply (first_three_lines RefLibm.libm world0). vm_compute. reflexivity.
Defined.


(** C9: every trig value printed, in whichever table, is a finite double
    (no infinity, no NaN), for every C library.  With a C library that is
    accurate to within half of the true value at the table's arguments
    (and overflows only where the true value is out of the range of
    doubles) no iteration raises an exception, so that all 6 + 1128
    lines are printed: the sines and cosines are at most 1 and the
    tangents at most 2^1000, none near the overflow threshold.  In
    general the run ends without an exception exactly when the library
    is finite on the table's arguments. *)
Theorem printed_values_finite (L : Libm) (w : World) :
  Forall (fun ln => is_header ln \/ finite_data_line ln) (lines (stdout_of L w)) /\
  (libm_accurate_on_table L ->
   result_of L w = inr tt /\
   lines (stdout_of L w) = table_lines L /\
   List.length (lines (stdout_of L w)) = (6 + 1128)%nat) /\
  (result_of L w = inr tt <-> libm_table_finite L = true).
Proof.
  split; [|split].
  - rewrite lines_stdout.
    apply transcript_Forall; try (left; unfold is_header; tauto).
    intros f hw s Hhw Hs. right.
    apply line_of_returns in Hs as [Hf ->]; [|assumption].
    exists (f (hwians_to_rads hw)), hw. repeat split; assumption.
  - intros HL. pose proof (accurate_table_finite L HL) as H.
    assert (Hl : lines (stdout_of L w) = table_lines L)
      by (rewrite lines_stdout, transcript_finite by assumption; reflexivity).
    split; [|split; [exact Hl|rewrite Hl; apply table_lines_length]].
    unfold result_of. now rewrite run_spec, transcript_finite.
  - unfold result_of. rewrite run_spec. cbn [snd]. split.
    + apply transcript_ends_ok.
    + intros H. now rewrite transcript_finite.
Qed.

(** The run with the reference library, which is that accurate, ends
    normally with all its lines. *)
Lemma printed_values_finite_ref :
  libm_accurate_on_table RefLibm.libm /\
  result_of RefLibm.libm world0 = inr tt /\
  List.length (lines (stdout_of RefLibm.libm world0)) = (6 + 1128)%nat.
Proof.
  split; [exact ref_libm_accurate|].
  destruct (printed_values_finite RefLibm.libm world0) as (_ & Hacc & _).
  destruct (Hacc ref_libm_accurate) as (Hres & _ & Hlen).
  split; assumption.
Defined.

End Table.

(* ===================================================================== *)
(** * Further properties of the converters *)
(* ===================================================================== *)

Section ConverterFacts.

Local Open Scope float_scope.

Lemma servo_units_seq : servo_units = map Z.of_nat (seq 0 1001).
Proof. vm_compute. reflexivity. Qed.

Lemma In_servo_units (u : Z) : In u servo_units <-> (0 <= u <= 1000)%Z.
Proof.
  rewrite servo_units_seq, in_map_iff. split.
  - intros (i & <- & Hi). apply in_seq in Hi. lia.
  - intros H. exists (Z.to_nat u). split; [lia|]. apply in_seq. lia.
Qed.

Lemma servo_units_forall (p : Z -> bool) :
  forallb p servo_units = true -> forall u, (0 <= u <= 1000)%Z -> p u = true.
Proof.
  intros H u Hu. rewrite forallb_forall in H. now apply H, In_servo_units.
Qed.

(** X1: on the servo's whole range 0..1000 both converters are strictly
    increasing, so distinct units never share a degree or radian value. *)
Theorem converters_strictly_increasing (u1 u2 : Z) :
  (0 <= u1)%Z -> (u1 < u2)%Z -> (u2 <= 1000)%Z ->
  (hwians_to_degs u1 <? hwians_to_degs u2) = true /\
  (hwians_to_rads u1 <? hwians_to_rads u2) = true.
Proof.
  intros H0 H12 H2.
  assert (Hall : forallb (fun a => forallb (fun b =>
            (b <=? a)%Z ||
            ((hwians_to_degs a <? hwians_to_degs b) &&
             (hwians_to_rads a <? hwians_to_rads b))) servo_units) servo_units = true)
    by (vm_compute; reflexivity).
  pose proof (servo_units_forall _ Hall u1 ltac:(lia)) as H1. cbv beta in H1.
  pose proof (servo_units_forall _ H1 u2 ltac:(lia)) as H. cbv beta in H.
  apply orb_true_iff in H as [H|H].
  - apply Z.leb_le in H. lia.
  - now apply andb_true_iff in H.
Qed.

(** Units 374 and 375. *)
Lemma converters_strictly_increasing_at_374_375 :
  (hwians_to_degs 374 <? hwians_to_degs 375) = true /\
  (hwians_to_rads 374 <? hwians_to_rads 375) = true.
Proof. apply (converters_strictly_increasing 374 375); lia. Defined.

(** X2: on the table's units 0..375 the degrees stay in [0, 90] and the
    radians in [0, math.pi / 2), strictly below the double of pi/2: the
    argument handed to [tan] never reaches it. *)
Theorem converters_stay_in_quadrant (unit : Z) :
  (0 <= unit <= 375)%Z ->
  (0 <=? hwians_to_degs unit) = true /\
  (hwians_to_degs unit <=? 90) = true /\
  (0 <=? hwians_to_rads unit) = true /\
  (hwians_to_rads unit <? math_pi / 2) = true.
Proof.
  intros H.
  assert (Hall : forallb (fun u =>
            (0 <=? hwians_to_degs u) && (hwians_to_degs u <=? 90) &&
            (0 <=? hwians_to_rads u) && (hwians_to_rads u <? math_pi / 2))
            units = true) by (vm_compute; reflexivity).
  pose proof (units_forall _ Hall unit H) as Hu. cbv beta in Hu.
  repeat (apply andb_true_iff in Hu as [Hu ?]). tauto.
Qed.

(** Unit 375, the right angle. *)
Lemma converters_stay_in_quadrant_at_375 :
  (0 <= 375 <= 375)%Z /\ (hwians_to_rads 375 <? math_pi / 2) = true.
Proof. split; [lia|]. apply (converters_stay_in_quadrant 375). lia. Defined.

(** X3: 25 units are 6 degrees, exactly: on every multiple of 25 in the
    servo's range the degree converter returns the whole number of
    degrees with no rounding error (0, 6, 12, ..., 90, ..., 240). *)
Theorem hwians_to_degs_exact_every_25 (k : Z) :
  (0 <= k <= 40)%Z ->
  hwians_to_degs (25 * k) = float_of_int (6 * k).
Proof.
  intros H.
  assert (Hk : In k (map Z.of_nat (seq 0 41))).
  { apply in_map_iff. exists (Z.to_nat k). split; [lia|]. apply in_seq. lia. }
  assert (F : Forall (fun k => hwians_to_degs (25 * k) = float_of_int (6 * k))
                     (map Z.of_nat (seq 0 41))).
  { cbn [map seq]. repeat (constructor; [vm_compute; reflexivity|]). constructor. }
  rewrite Forall_forall in F. now apply F.
Qed.

(** Unit 375 = 25 * 15 is 90 degrees. *)
Lemma hwians_to_degs_exact_every_25_at_15 :
  (0 <= 15 <= 40)%Z /\ hwians_to_degs (25 * 15) = float_of_int (6 * 15).
Proof. split; [lia|]. apply (hwians_to_degs_exact_every_25 15). lia. Defined.

End ConverterFacts.

(* ===================================================================== *)
(** * The characters of the output *)
(* ===================================================================== *)

Section AlphabetFacts.

Lemma all_in_app (A a b : string) :
  all_in A (a ++ b) = all_in A a && all_in A b.
Proof.
  induction a as [|x a IH]; cbn [append all_in]; [reflexivity|].
  rewrite IH. now rewrite andb_assoc.
Qed.

Lemma char_in_sub (A B : string) (c : ascii) :
  all_in B A = true -> char_in A c = true -> char_in B c = true.
Proof.
  induction A as [|a A IH]; cbn [all_in char_in]; [discriminate|].
  intros HA Hc. apply andb_true_iff in HA as [Ha HA].
  apply orb_true_iff in Hc as [Hc|Hc].
  - apply Ascii.eqb_eq in Hc. now subst.
  - now apply IH.
Qed.

Lemma all_in_mono (A B s : string) :
  all_in B A = true -> all_in A s = true -> all_in B s = true.
Proof.
  intros HAB. induction s as [|c s IH]; cbn [all_in]; [reflexivity|].
  intros H. apply andb_true_iff in H as [Hc Hs].
  now rewrite (char_in_sub A B c HAB Hc), IH.
Qed.

Lemma all_in_repeat_char (A : string) (c : ascii) (n : nat) :
  char_in A c = true -> all_in A (repeat_char c n) = true.
Proof.
  intros Hc. induction n as [|n IH]; cbn [repeat_char all_in];
    [reflexivity | now rewrite Hc, IH].
Qed.

Lemma all_in_substring (A s : string) :
  all_in A s = true -> forall n m, all_in A (substring n m s) = true.
Proof.
  induction s as [|c s IH]; intros Hs n m.
  - destruct n, m; reflexivity.
  - cbn [all_in] in Hs. apply andb_true_iff in Hs as [Hc Hs].
    destruct n as [|n]; cbn [substring].
    + destruct m as [|m]; cbn [all_in]; [reflexivity|].
      rewrite Hc. now apply IH.
    + now apply IH.
Qed.

Lemma all_in_str_head (A s : string) :
  all_in A s = true -> all_in A (str_head s) = true.
Proof.
  destruct s as [|c s]; cbn [str_head all_in]; [reflexivity|].
  intros H. apply andb_true_iff in H as [Hc _]. now rewrite Hc.
Qed.

Lemma all_in_str_tail (A s : string) :
  all_in A s = true -> all_in A (str_tail s) = true.
Proof.
  destruct s as [|c s]; cbn [str_tail all_in]; [reflexivity|].
  intros H. now apply andb_true_iff in H as [_ Hs].
Qed.

Lemma numeric_string_of_uint (d : Decimal.uint) :
  all_in numeric_chars (NilEmpty.string_of_uint d) = true.
Proof.
  induction d; cbn [NilEmpty.string_of_uint all_in]; rewrite ?IHd; reflexivity.
Qed.

Lemma numeric_str_nat_Z (n : Z) : all_in numeric_chars (str_nat_Z n) = true.
Proof.
  unfold str_nat_Z, NilZero.string_of_uint.
  destruct (N.to_uint (Z.to_N n)); try reflexivity;
    apply (numeric_string_of_uint (_ _)).
Qed.

Lemma numeric_exp_text (x : Z) : all_in numeric_chars (exp_text x) = true.
Proof.
  unfold exp_text. rewrite all_in_app.
  assert (Ha : all_in numeric_chars (str_nat_Z (Z.abs x)) = true)
    by apply numeric_str_nat_Z.
  destruct (x <? 0); destruct (Nat.ltb _ 2);
    rewrite ?all_in_app, ?Ha; reflexivity.
Qed.

Lemma numeric_float_layout (ds : string) (decpt : Z) :
  all_in numeric_chars ds = true ->
  all_in numeric_chars (float_layout ds decpt) = true.
Proof.
  intros Hds. unfold float_layout.
  destruct ((decpt <=? -4) || (16 <? decpt)).
  - rewrite !all_in_app, all_in_str_head, numeric_exp_text by assumption.
    destruct (Nat.ltb 1 (String.length ds)).
    + rewrite all_in_app, all_in_str_tail by assumption. reflexivity.
    + reflexivity.
  - destruct (decpt <=? 0).
    + rewrite !all_in_app, Hds, all_in_repeat_char; reflexivity.
    + destruct (Z.of_nat (String.length ds) <=? decpt).
      * rewrite !all_in_app, Hds, all_in_repeat_char; reflexivity.
      * rewrite !all_in_app, !all_in_substring by assumption. reflexivity.
Qed.

Lemma numeric_finite_case (s : bool) (m : positive) (e : Z) :
  all_in numeric_chars
    (let '(ds, decpt) := float_digits m e in
     (if s then "-" else "") ++ float_layout ds decpt) = true.
Proof.
  assert (Hd : all_in numeric_chars (fst (float_digits m e)) = true).
  { unfold float_digits.
    destruct (shortest_from 17 _ _ 1) as [c q].
    destruct (strip_zeros 20 c q) as [c' q'].
    apply numeric_str_nat_Z. }
  destruct (float_digits m e) as [ds decpt]. cbn [fst] in Hd.
  rewrite all_in_app, numeric_float_layout by assumption.
  destruct s; reflexivity.
Qed.

(** The text of a finite double is made of digits, [.], [e], [+] and
    [-] only. *)
Lemma numeric_float_repr (x : float) :
  is_finite x = true -> all_in numeric_chars (float_repr x) = true.
Proof.
  intros H. unfold is_finite in H.
  apply negb_true_iff, orb_false_iff in H as [Hn Hi].
  unfold float_repr, Prim2SF. rewrite Hn, Hi.
  destruct (PrimFloat.is_zero x); [destruct (PrimFloat.get_sign x); reflexivity|].
  destruct (FloatOps.Z.frexp x) as [r ex].
  destruct (shr_fexp _ _ _ _ _) as [shr e'].
  destruct (shr_m shr); try reflexivity.
  apply numeric_finite_case.
Qed.

(** The text of any double is over the alphabet of [repr]. *)
Lemma repr_chars_float_repr (x : float) :
  all_in repr_chars (float_repr x) = true.
Proof.
  unfold float_repr.
  destruct (Prim2SF x) as [s|s| |s m e]; try (destruct s; reflexivity);
    try reflexivity.
  apply (all_in_mono numeric_chars); [reflexivity|].
  apply numeric_finite_case.
Qed.

Lemma split_at_first (A s rest : string) (c : ascii) :
  all_in A s = true -> char_in A c = false ->
  split_at c (s ++ String c rest) = (s, rest).
Proof.
  intros Hs Hc. induction s as [|a s IH]; cbn [append split_at].
  - now rewrite Ascii.eqb_refl.
  - cbn [all_in] in Hs. apply andb_true_iff in Hs as [Ha Hs].
    destruct (Ascii.eqb_spec a c) as [->|_]; [congruence|].
    now rewrite (IH Hs).
Qed.

Lemma starts_with_other (A s t : string) (c d : ascii) :
  all_in A s = true -> char_in A c = false -> Ascii.eqb d c = false ->
  starts_with c (s ++ String d t) = false.
Proof.
  intros Hs Hc Hd. destruct s as [|a s]; cbn [append starts_with]; [assumption|].
  cbn [all_in] in Hs. apply andb_true_iff in Hs as [Ha _].
  destruct (Ascii.eqb_spec a c) as [->|_]; [congruence | reflexivity].
Qed.

Lemma format_line_parts (r : float) (hw : Z) :
  format_line r hw (hwians_to_rads hw) (hwians_to_degs hw) =
  float_repr r ++ String TAB (comment_of hw).
Proof. reflexivity. Qed.

Lemma entry_parts (f : float -> float) (hw : Z) :
  entry f hw = float_repr (f (hwians_to_rads hw)) ++ String TAB (comment_of hw).
Proof. reflexivity. Qed.

Lemma split_entry (f : float -> float) (hw : Z) :
  split_at TAB (entry f hw) =
  (float_repr (f (hwians_to_rads hw)), comment_of hw).
Proof.
  rewrite entry_parts.
  apply (split_at_first repr_chars); [apply repr_chars_float_repr | reflexivity].
Qed.

End AlphabetFacts.

(* ===================================================================== *)
(** * Further properties of the emitted table *)
(* ===================================================================== *)

Section OutputFacts.

Lemma math_1_value (f : float -> float) (b : bool) (x r : float) :
  math_1 f b x = inr r -> r = f x.
Proof.
  unfold math_1.
  destruct (is_nan (f x) && negb (is_nan x)); [discriminate|].
  destruct (is_infinity (f x) && is_finite x); [discriminate|].
  now intros [= <-].
Qed.

Lemma math_1_error (f : float -> float) (x : float) (e : PyExc) :
  math_1 f false x = inl e -> e = ValueError "math domain error".
Proof.
  unfold math_1.
  destruct (is_nan (f x) && negb (is_nan x)); [now intros [= <-]|].
  destruct (is_infinity (f x) && is_finite x); [now intros [= <-]|].
  discriminate.
Qed.

(** What a loop printed is the beginning of what it would print in
    full; something is missing exactly when it raised. *)
Lemma emitted_prefix (f : float -> float) (l : list Z) :
  exists rest : list string,
    map (entry f) l = (emitted (line_of (math_1 f false)) l ++ rest)%list /\
    (outcome (line_of (math_1 f false)) l = inr tt /\ rest = [] \/
     outcome (line_of (math_1 f false)) l =
       inl (ValueError "math domain error") /\ rest <> []).
Proof.
  induction l as [|x l (rest & Hm & Ho)]; [exists []; split; [reflexivity | now left]|].
  cbn [map emitted outcome].
  destruct (math_1 f false (hwians_to_rads x)) as [e|r] eqn:Hx.
  - assert (Hl : line_of (math_1 f false) x = inl (ValueError "math domain error")).
    { unfold line_of. rewrite Hx. now apply math_1_error in Hx as ->. }
    rewrite Hl. exists (entry f x :: map (entry f) l).
    split; [reflexivity|]. right. split; [reflexivity | discriminate].
  - assert (Hl : line_of (math_1 f false) x = inr (entry f x)).
    { unfold line_of. rewrite Hx. now apply math_1_value in Hx as ->. }
    rewrite Hl. exists rest. split.
    + cbn [app]. now rewrite <- Hm.
    + exact Ho.
Qed.

Ltac list_norm :=
  repeat first [ rewrite <- app_assoc | rewrite <- app_comm_cons
               | rewrite app_nil_r | progress cbn [app append] ].

Lemma transcript_prefix (L : Libm) :
  exists rest : list string,
    table_lines L = (fst (transcript L) ++ rest)%list /\
    (snd (transcript L) = inr tt /\ rest = [] \/
     snd (transcript L) = inl (ValueError "math domain error") /\ rest <> []).
Proof.
  destruct (emitted_prefix (c_sin L) units) as (rs & Hs & Os).
  destruct (emitted_prefix (c_cos L) units) as (rc & Hc & Oc).
  destruct (emitted_prefix (c_tan L) units) as (rt & Ht & Ot).
  unfold transcript, table_lines, pass_lines, pass_outcome,
    math_sin, math_cos, math_tan.
  destruct Os as [[-> ->]|[-> Ns]].
  - destruct Oc as [[-> ->]|[-> Nc]].
    + exists rt. rewrite Hs, Hc, Ht. cbn [fst snd].
      split; [list_norm; reflexivity | exact Ot].
    + exists (rc ++ [";"; ";tan"] ++ map (entry (c_tan L)) units)%list.
      rewrite Hs, Hc. cbn [fst snd]. split; [list_norm; reflexivity|].
      right. split; [reflexivity|].
      intros H. apply app_eq_nil in H as [H _]. contradiction.
  - exists (rs ++ [";"; ";cos"] ++ map (entry (c_cos L)) units ++
            [";"; ";tan"] ++ map (entry (c_tan L)) units)%list.
    rewrite Hs. cbn [fst snd]. split; [list_norm; reflexivity|].
    right. split; [reflexivity|].
    intros H. apply app_eq_nil in H as [H _]. contradiction.
Qed.

Lemma units_nth (hw : Z) :
  0 <= hw <= 375 -> nth_error units (Z.to_nat hw) = Some hw.
Proof.
  intros H. rewrite units_seq.
  rewrite nth_error_map.
  replace (nth_error (seq 0 376) (Z.to_nat hw)) with (Some (Z.to_nat hw)).
  - cbn. f_equal. lia.
  - symmetry. rewrite nth_error_nth' with (d := O) by (rewrite length_seq; lia).
    rewrite seq_nth by lia. reflexivity.
Qed.

Lemma header_starts (ln : string) : is_header ln -> starts_with ";" ln = true.
Proof. intros [->|[->|[->| ->]]]; reflexivity. Qed.

Lemma entry_not_header_start (f : float -> float) (hw : Z) :
  starts_with ";" (entry f hw) = false.
Proof.
  rewrite entry_parts.
  apply (starts_with_other repr_chars);
    [apply repr_chars_float_repr | reflexivity | reflexivity].
Qed.

Lemma line_of_ext (f1 f2 : float -> float) (hw : Z) :
  f1 (hwians_to_rads hw) = f2 (hwians_to_rads hw) ->
  line_of (math_1 f1 false) hw = line_of (math_1 f2 false) hw.
Proof. intros H. unfold line_of, math_1. now rewrite H. Qed.

Lemma emitted_ext (g1 g2 : Z -> PyExc + string) (l : list Z) :
  (forall x, In x l -> g1 x = g2 x) ->
  emitted g1 l = emitted g2 l /\ outcome g1 l = outcome g2 l.
Proof.
  induction l as [|x l IH]; intros H; [split; reflexivity|].
  cbn [emitted outcome]. rewrite (H x) by now left.
  destruct IH as [IH1 IH2]; [intros y Hy; apply H; now right|].
  now rewrite IH1, IH2.
Qed.

End OutputFacts.

Section OutputProperties.

Lemma units_length : List.length units = 376%nat.
Proof. rewrite units_seq, length_map, length_seq. reflexivity. Qed.

Lemma nth_in_block (pre post : list string) (f : Z -> string) (hw : Z) :
  0 <= hw <= 375 ->
  nth_error (pre ++ map f units ++ post)%list
            (List.length pre + Z.to_nat hw) = Some (f hw).
Proof.
  intros H.
  rewrite nth_error_app2 by lia.
  replace (List.length pre + Z.to_nat hw - List.length pre)%nat
    with (Z.to_nat hw) by lia.
  rewrite nth_error_app1 by (rewrite length_map, units_length; lia).
  rewrite nth_error_map, units_nth by assumption. reflexivity.
Qed.

(** X4: in a complete run the line of unit [hw] is found by position:
    line [2 + hw] (counting from 0) in the sine table, [380 + hw] in the
    cosine table and [758 + hw] in the tangent table. *)
Theorem table_lookup (L : Libm) (w : World) (hw : Z) :
  libm_table_finite L = true -> 0 <= hw <= 375 ->
  nth_error (lines (stdout_of L w)) (Z.to_nat (2 + hw)) =
    Some (entry (c_sin L) hw) /\
  nth_error (lines (stdout_of L w)) (Z.to_nat (380 + hw)) =
    Some (entry (c_cos L) hw) /\
  nth_error (lines (stdout_of L w)) (Z.to_nat (758 + hw)) =
    Some (entry (c_tan L) hw).
Proof.
  intros HL H.
  rewrite lines_stdout, transcript_finite by assumption. cbn [fst].
  unfold table_lines. repeat split.
  - replace (Z.to_nat (2 + hw))
      with (List.length [";"; ";sin"] + Z.to_nat hw)%nat by (cbn [List.length]; lia).
    now apply nth_in_block.
  - rewrite (app_assoc [";"; ";sin"]), (app_assoc _ [";"; ";cos"]).
    replace (Z.to_nat (380 + hw))
      with (List.length (([";"; ";sin"] ++ map (entry (c_sin L)) units) ++
                         [";"; ";cos"])%list + Z.to_nat hw)%nat
      by (rewrite !length_app, length_map, units_length; cbn [List.length]; lia).
    now apply nth_in_block.
  - rewrite (app_assoc [";"; ";sin"]), (app_assoc _ [";"; ";cos"]),
      (app_assoc _ (map (entry (c_cos L)) units)), (app_assoc _ [";"; ";tan"]).
    replace (Z.to_nat (758 + hw))
      with (List.length (((([";"; ";sin"] ++ map (entry (c_sin L)) units) ++
                           [";"; ";cos"]) ++ map (entry (c_cos L)) units) ++
                         [";"; ";tan"])%list + Z.to_nat hw)%nat
      by (rewrite !length_app, !length_map, units_length; cbn [List.length]; lia).
    rewrite <- (app_nil_r (map (entry (c_tan L)) units)).
    now apply nth_in_block.
Qed.

(** The right angle with the reference library: line 377 of the sine
    table reads 1.0. *)
Lemma table_lookup_ref_375 :
  libm_table_finite RefLibm.libm = true /\ 0 <= 375 <= 375 /\
  nth_error (lines (stdout_of RefLibm.libm world0)) (Z.to_nat (2 + 375)) =
    Some ("1.0" ++ String TAB "; HW:375 Rads:1.5707963267948963 Degs:90.0").
Proof.
  split; [exact ref_libm_table_finite|]. split; [lia|].
  destruct (table_lookup RefLibm.libm world0 375 ref_libm_table_finite
              ltac:(lia)) as (Hs & _ & _).
  rewrite Hs. f_equal; vm_compute; reflexivity.
Defined.

(** X5: standard output is made of whole lines: every line the program
    wrote, the last one too, ends in a line feed, so the text is
    recovered from its lines.  This holds also for a run cut short by an
    exception. *)
Theorem stdout_is_whole_lines (L : Libm) (w : World) :
  stdout_of L w = unlines (lines (stdout_of L w)).
Proof.
  rewrite lines_stdout. unfold stdout_of. rewrite run_spec. reflexivity.
Qed.

(** X6: whatever the C library returns, what a run has printed is a
    beginning of the complete table, headers and data lines in their
    order and none altered; it is the whole table exactly when no [math]
    call raised, and a proper beginning otherwise. *)
Theorem partial_output_is_a_prefix (L : Libm) (w : World) :
  exists rest : list string,
    table_lines L = (lines (stdout_of L w) ++ rest)%list /\
    (rest = [] <-> result_of L w = inr tt).
Proof.
  rewrite lines_stdout. unfold result_of. rewrite run_spec. cbn [snd].
  destruct (transcript_prefix L) as (rest & Ht & Hr).
  exists rest. split; [exact Ht|].
  destruct Hr as [[Hok ->]|[Herr Hne]].
  - split; intros _; [exact Hok | reflexivity].
  - rewrite Herr. split; [intros H; contradiction | discriminate].
Qed.

(** X7: the number of lines tells whether the run was complete: there
    are never more than 1134 lines, and there are exactly 1134 if and
    only if the run ended without an exception. *)
Theorem line_count_tells_completion (L : Libm) (w : World) :
  (List.length (lines (stdout_of L w)) <= 1134)%nat /\
  (List.length (lines (stdout_of L w)) = 1134%nat <-> result_of L w = inr tt).
Proof.
  rewrite lines_stdout. unfold result_of. rewrite run_spec. cbn [snd].
  destruct (transcript_prefix L) as (rest & Ht & Hr).
  pose proof (table_lines_length L) as Hlen.
  rewrite Ht, length_app in Hlen.
  split; [lia|].
  destruct Hr as [[Hok ->]|[Herr Hne]].
  - cbn [List.length] in Hlen. split; [intros _; exact Hok | intros _; lia].
  - destruct rest as [|r rest]; [contradiction|]. cbn [List.length] in Hlen.
    rewrite Herr. split; [lia | discriminate].
Qed.


(** X9: the value field of every data line, the text before the first
    tab, is made of digits, [.], [e], [+] and [-] only: the words [inf]
    and [nan] never appear in a table, for any C library. *)
Theorem value_fields_are_numeric (L : Libm) (w : World) :
  Forall (fun ln =>
            is_header ln \/
            all_in numeric_chars (fst (split_at TAB ln)) = true)
         (lines (stdout_of L w)).
Proof.
  rewrite lines_stdout.
  apply transcript_Forall; try (left; unfold is_header; tauto).
  intros f hw s Hhw Hs. right.
  apply line_of_returns in Hs as [Hf ->]; [|assumption].
  rewrite split_entry. cbn [fst]. now apply numeric_float_repr.
Qed.

(** X10: the header lines are exactly the lines that begin with [;]:
    no data line begins with it, whatever the C library returns. *)
Theorem headers_are_the_semicolon_lines (L : Libm) (w : World) :
  Forall (fun ln => is_header ln <-> starts_with ";" ln = true)
         (lines (stdout_of L w)).
Proof.
  rewrite lines_stdout.
  apply transcript_Forall;
    try (split; [intros _; reflexivity | intros _; unfold is_header; tauto]).
  intros f hw s Hhw Hs.
  apply line_of_returns in Hs as [_ ->]; [|assumption].
  pose proof (entry_not_header_start f hw) as Hn.
  split.
  - intros Hh. apply header_starts in Hh. congruence.
  - intros Hh. congruence.
Qed.

(** X11: a run depends on the C library only through the values of
    [sin], [cos] and [tan] at the radians of the units 0..375: two
    libraries that agree there give the same output and the same end. *)
Theorem run_depends_on_table_arguments (L1 L2 : Libm) (w1 w2 : World) :
  (forall hw, 0 <= hw <= 375 ->
     c_sin L1 (hwians_to_rads hw) = c_sin L2 (hwians_to_rads hw) /\
     c_cos L1 (hwians_to_rads hw) = c_cos L2 (hwians_to_rads hw) /\
     c_tan L1 (hwians_to_rads hw) = c_tan L2 (hwians_to_rads hw)) ->
  run L1 w1 = run L2 w2.
Proof.
  intros H.
  assert (E : forall f1 f2,
     (forall hw, 0 <= hw <= 375 -> f1 (hwians_to_rads hw) = f2 (hwians_to_rads hw)) ->
     emitted (line_of (math_1 f1 false)) units =
       emitted (line_of (math_1 f2 false)) units /\
     outcome (line_of (math_1 f1 false)) units =
       outcome (line_of (math_1 f2 false)) units).
  { intros f1 f2 Hf. apply emitted_ext. intros hw Hhw.
    apply line_of_ext, Hf. now apply In_units. }
  destruct (E (c_sin L1) (c_sin L2)) as [Es Os]; [intros hw Hhw; apply H, Hhw|].
  destruct (E (c_cos L1) (c_cos L2)) as [Ec Oc]; [intros hw Hhw; apply H, Hhw|].
  destruct (E (c_tan L1) (c_tan L2)) as [Et Ot]; [intros hw Hhw; apply H, Hhw|].
  rewrite !run_spec.
  unfold transcript, pass_lines, pass_outcome, math_sin, math_cos, math_tan.
  now rewrite Es, Os, Ec, Oc, Et, Ot.
Qed.

(** The reference library and one that returns 0 above 2 radians, where
    the table never goes. *)
Lemma run_depends_on_table_arguments_ref :
  run RefLibm.libm world0 =
  run {| c_sin := fun x => if (x <=? 2)%float then RefLibm.ref_sin x else 0%float;
         c_cos := fun x => if (x <=? 2)%float then RefLibm.ref_cos x else 0%float;
         c_tan := fun x => if (x <=? 2)%float then RefLibm.ref_tan x else 0%float |}
      world0.
Proof.
  apply run_depends_on_table_arguments.
  intros hw Hhw. cbn [c_sin c_cos c_tan RefLibm.libm].
  assert (Hle : (hwians_to_rads hw <=? 2)%float = true).
  { revert hw Hhw. apply units_forall. vm_compute. reflexivity. }
  rewrite Hle. repeat split.
Defined.

End OutputProperties.
